(** * M.O.V.E. coaching rule engine (src/App.js): model and properties

    The rule engine of the single-file React application is embedded
    function by function.  JavaScript numbers that hold measured
    quantities (loads, readiness scores, effort levels, percentages) are
    IEEE 754 binary64 values and are modelled by Rocq's primitive [float],
    which is the same format with the same round-to-nearest-even
    arithmetic.  Numbers that the data model declares to be whole (week
    index, slot count, pain flag, set and rep counts) are modelled by [Z];
    binary64 holds every whole number up to 2^53 exactly.
    String enumerations documented in the source ("Base | Build | Peak |
    Deload", the weekday tokens, the template keys, the quick-action
    kinds) are inductive types.  [null] and [undefined] are [None].
    Strings are the UTF-8 bytes of the JavaScript strings, on which
    concatenation, substring search and splitting at a space agree with
    the source's. *)

From Stdlib Require Import ZArith List String Ascii Bool Lia Floats.
From Stdlib Require DecimalString.
Import ListNotations.

Set Warnings "-inexact-float".

Local Open Scope Z_scope.
Local Open Scope string_scope.
Local Open Scope float_scope.

(* ------------------------------------------------------------------ *)
(** ** JavaScript built-ins used by the rule engine *)

Module JS.

(** The binary64 value nearest to an integer (exact below 2^53). *)
Definition float_of_Z (z : Z) : float :=
  SF2Prim (binary_normalize prec emax z 0 false).

Definition float_of_nat (n : nat) : float := float_of_Z (Z.of_nat n).

(** ToBoolean on a number: 0, -0 and NaN are falsy. *)
Definition truthy (x : float) : bool := negb (is_zero x || is_nan x).

(** [a >= b] on numbers. *)
Definition geb (a b : float) : bool := b <=? a.

(** [Math.round]: the integer nearest to [x], ties towards +infinity;
    NaN, the infinities and both zeros are returned unchanged, and a
    result of zero keeps the sign of [x]. *)
Definition Math_round (x : float) : float :=
  match Prim2SF x with
  | S754_finite s m e =>
      if (0 <=? e)%Z then x
      else
        let sm := if s then Z.neg m else Z.pos m in
        let n := ((2 * sm + 2 ^ (- e)) / 2 ^ (1 - e))%Z in
        if (n =? 0)%Z then (if s then (-0)%float else 0%float)
        else float_of_Z n
  | _ => x
  end.

(** [Math.max] on two arguments: NaN if either is NaN, and +0 is larger
    than -0. *)
Definition Math_max (a b : float) : float :=
  if is_nan a || is_nan b then nan
  else if b <? a then a
  else if a <? b then b
  else if is_zero a && get_sign a then b
  else a.

(** The ASCII part of case folding: A-Z to a-z, every other byte kept.
    This is the whole of the folding a [/.../i] pattern without the [u]
    flag applies to ASCII letters, and it is what
    [String.prototype.toLowerCase] does on ASCII strings.  The load
    estimator of module [Estimator] takes the host's [toLowerCase] as a
    parameter instead. *)
Definition lower_ascii (c : ascii) : ascii :=
  let n := nat_of_ascii c in
  if (65 <=? n)%nat && (n <=? 90)%nat then ascii_of_nat (n + 32) else c.

Fixpoint toLowerCase (s : string) : string :=
  match s with
  | EmptyString => EmptyString
  | String c s' => String (lower_ascii c) (toLowerCase s')
  end.

(** [s.includes(sub)]: [sub] occurs in [s] as a contiguous substring. *)
Fixpoint includes (s sub : string) : bool :=
  String.prefix sub s
  || match s with
     | EmptyString => false
     | String _ s' => includes s' sub
     end.

(** [s.split(" ")[0]]: the characters before the first space. *)
Fixpoint split_space_0 (s : string) : string :=
  match s with
  | EmptyString => EmptyString
  | String c s' =>
      if Ascii.eqb c " "%char then EmptyString
      else String c (split_space_0 s')
  end.

(** Decimal rendering of a whole number inside a template literal. *)
Definition Z_toString (z : Z) : string :=
  DecimalString.NilZero.string_of_int (Z.to_int z).

Section Arrays.
Context {A : Type}.

(** [arr.indexOf(x)], with -1 when [x] is absent. *)
Fixpoint indexOf_from (eqb : A -> A -> bool) (x : A) (arr : list A)
         (i : Z) : Z :=
  match arr with
  | [] => -1
  | y :: arr' => if eqb y x then i else indexOf_from eqb x arr' (i + 1)
  end.

Definition indexOf (eqb : A -> A -> bool) (x : A) (arr : list A) : Z :=
  indexOf_from eqb x arr 0.

(** [arr[i]]: [undefined] outside the array. *)
Definition get (arr : list A) (i : Z) : option A :=
  if (i <? 0)%Z then None else nth_error arr (Z.to_nat i).

(** [arr.includes(x)] where [x] may be [undefined]. *)
Definition arr_includes (eqb : A -> A -> bool) (arr : list A)
           (x : option A) : bool :=
  match x with
  | Some v => existsb (fun y => eqb y v) arr
  | None => false
  end.

(** [arr.find(p)]. *)
Definition find (p : A -> bool) (arr : list A) : option A :=
  List.find p arr.

(** [arr.some(p)]. *)
Definition some (p : A -> bool) (arr : list A) : bool := existsb p arr.

(** [arr.map((x, idx) => f(x, idx))], the index counted from [i]. *)
Fixpoint map_idx_from (f : A -> nat -> A) (arr : list A) (i : nat)
  : list A :=
  match arr with
  | [] => []
  | x :: arr' => f x i :: map_idx_from f arr' (S i)
  end.

Definition map_idx (f : A -> nat -> A) (arr : list A) : list A :=
  map_idx_from f arr 0.
End Arrays.

(** [Number.isFinite] on a number. *)
Definition isFinite (x : float) : bool := is_finite x.

(** [arr.reduce((a, b) => a + b, 0)]. *)
Definition sum (arr : list float) : float :=
  fold_left (fun a b => a + b) arr 0.

End JS.

(* ------------------------------------------------------------------ *)
(** ** Data model *)

Inductive weekday := Mon | Tue | Wed | Thu | Fri | Sat | Sun.

Definition weekday_eqb (a b : weekday) : bool :=
  match a, b with
  | Mon, Mon | Tue, Tue | Wed, Wed | Thu, Thu
  | Fri, Fri | Sat, Sat | Sun, Sun => true
  | _, _ => false
  end.

Inductive goal := bjj_strength | general_strength | fat_loss | youth.

Inductive area := shoulder | knee | hip | back | wrist | ankle.

Inductive phase := Base | Build | Peak | Deload.

Inductive focus := lower_strength | upper_shoulder_safe | gpp.

Inductive bjjLoad := light | moderate | hard.

Record Equipment := {
  barbell : bool; rack : bool; dumbbells : bool;
  kettlebells : bool; bands : bool; sled : bool
}.

Record Injury := {
  inj_area : area;
  aggravates : list string;
  severity : Z
}.

Record Prefs := { barbellBias : bool; dislikes : list string }.

Record Profile := {
  name : string;
  email : string;
  prof_goal : goal;
  trainingAgeYrs : Z;
  daysAvailable : list weekday;
  minutesPerSession : Z;
  equipment : Equipment;
  bjjDays : list weekday;
  injuries : list Injury;
  prefs : Prefs
}.

Record Readiness := {
  sleep : float;
  soreness : float;
  stress : float;
  hrv : option float;
  rd_bjjLoad : bjjLoad
}.

(** A block as the templates give it. *)
Record TemplateBlock := {
  t_move : string;
  t_alt : option string;
  t_scheme : string;
  t_targetRPE : float;
  t_slots : Z
}.

Record Template := {
  t_title : string;
  t_warmup : list string;
  t_blocks : list TemplateBlock;
  t_finisher : string
}.

(** A block of a planned session: the template block plus the load
    suggestion. *)
Record Block := {
  move : string;
  alt : option string;
  scheme : string;
  targetRPE : float;
  slots : Z;
  loadSuggestion : option float
}.

Record Session := {
  s_id : string;
  day : weekday;
  title : string;
  warmup : list string;
  blocks : list Block;
  finisher : string;
  cues : list string
}.

Record CompletedSet := {
  c_move : option string;
  c_sets : Z;
  c_reps : Z;
  c_rpe : float;
  lastLoad : option float
}.

Record SessionLog := {
  l_id : string;
  l_weekIndex : Z;
  l_date : string;
  completed : option (list CompletedSet);
  rpeAvg : option float;
  painFlag : Z;
  l_notes : string;
  missed : bool
}.

Record State := {
  profile : Profile;
  currentPhase : phase;
  weekIndex : Z;
  sessions : list Session;
  sessionLogs : list SessionLog;
  readinessToday : Readiness
}.

Record Constraints := { c_shoulder : bool }.

(* ------------------------------------------------------------------ *)
(** ** Rule engine *)

Definition weekdays : list weekday := [Mon; Tue; Wed; Thu; Fri; Sat; Sun].

(** [adjustLoad(prev, readiness, pain)]: the running [delta] is threaded
    through the four [if] statements in source order. *)
Definition adjustLoad (prev : float) (readiness : Readiness) (pain : bool)
  : float :=
  let delta := 0 in
  let r := readiness in
  let delta := if pain then delta - 7 else delta in
  let delta :=
    if JS.geb (sleep r) 7 && (soreness r <=? 3) && (stress r <=? 3)
    then delta + 3 else delta in
  let delta := if JS.geb (soreness r) 4 then delta - 2 else delta in
  let delta := if JS.geb (stress r) 4 then delta - 1 else delta in
  JS.Math_max 0 (JS.Math_round (prev * (1 + delta / 100))).

Definition nextDay (d : weekday) : option weekday :=
  let idx := JS.indexOf weekday_eqb d weekdays in
  JS.get weekdays (Z.rem (idx + 1) 7).

Definition chooseFocus (d : weekday) (p : Profile) : focus :=
  let bjjTomorrow := JS.arr_includes weekday_eqb (bjjDays p) (nextDay d) in
  if weekday_eqb d Mon then lower_strength
  else if weekday_eqb d Thu then upper_shoulder_safe
  else if weekday_eqb d Sat then gpp
  else if bjjTomorrow then upper_shoulder_safe else lower_strength.

(** *** Movement templates *)

Definition templates (f : focus) (constraints : Constraints) : Template :=
  match f with
  | lower_strength =>
      {| t_title := "Lower Strength + Grip";
         t_warmup :=
           ["Hip Airplanes 2x5/side"; "T-Spine Opener 2x8"; "Ankle ROCK 2x10"];
         t_blocks :=
           [ {| t_move := "Back Squat";
                t_alt := if c_shoulder constraints
                         then Some "Safety Bar Squat" else None;
                t_scheme := "Top set @8, backoffs 2x5 @70–75%";
                t_targetRPE := 8; t_slots := 3 |};
             {| t_move := "RDL"; t_alt := None;
                t_scheme := "3x6–8 @7–8"; t_targetRPE := 8; t_slots := 3 |};
             {| t_move := "Carry (Farmer)"; t_alt := None;
                t_scheme := "4x40–60m"; t_targetRPE := 7; t_slots := 4 |};
             {| t_move := "Grip Roll-ups"; t_alt := None;
                t_scheme := "3x to fatigue"; t_targetRPE := 8; t_slots := 3 |} ];
         t_finisher := "Nasal Walk 6–10min or Sled Drags" |}
  | upper_shoulder_safe =>
      {| t_title := "Upper Push/Pull (Shoulder-Safe)";
         t_warmup :=
           ["Scap CARs 2x5"; "Band External Rotations 2x12"; "Wall Slides 2x8"];
         t_blocks :=
           [ {| t_move := if c_shoulder constraints
                          then "DB Neutral Press" else "Barbell Bench Press";
                t_alt := None;
                t_scheme := "Top set @8, 2x6 @70–75%";
                t_targetRPE := 8; t_slots := 3 |};
             {| t_move := "Chest-Supported Row"; t_alt := None;
                t_scheme := "3x8–10 @8"; t_targetRPE := 8; t_slots := 3 |};
             {| t_move := "Cuff Isometrics"; t_alt := None;
                t_scheme := "3x20-30s"; t_targetRPE := 6; t_slots := 3 |};
             {| t_move := "Pull-ups or Pulldown"; t_alt := None;
                t_scheme := "3x6–10 @8"; t_targetRPE := 8; t_slots := 3 |} ];
         t_finisher := "Breathe-Down 5min (box 4-6-6-4)" |}
  | gpp =>
      {| t_title := "GPP / Carries / Conditioning";
         t_warmup := ["World’s Greatest 2x"; "Cossack 2x6/side"];
         t_blocks :=
           [ {| t_move := "Sled Push/Drag"; t_alt := None;
                t_scheme := "10–15min easy-moderate";
                t_targetRPE := 6; t_slots := 1 |};
             {| t_move := "KB Swings"; t_alt := None;
                t_scheme := "8x15 EMOM"; t_targetRPE := 7; t_slots := 8 |};
             {| t_move := "Carries Mix"; t_alt := None;
                t_scheme := "5–8min"; t_targetRPE := 7; t_slots := 1 |} ];
         t_finisher := "Easy Zone-2 15–20min optional" |}
  end.

Definition area_is_shoulder (a : area) : bool :=
  match a with shoulder => true | _ => false end.

Definition inferConstraints (p : Profile) : Constraints :=
  {| c_shoulder :=
       JS.some (fun i => area_is_shoulder (inj_area i)) (injuries p) |}.

(** *** Load estimator *)

(** [s.completed?.some?.(() => true)] *)
Definition has_completed_sets (s : SessionLog) : bool :=
  match completed s with
  | Some cs => JS.some (fun _ => true) cs
  | None => false
  end.

(** [x.move?.toLowerCase?.().includes(move.split(" ")[0].toLowerCase())]
    with the folding of ASCII names; the general estimator is
    [Estimator.move_matches]. *)
Definition move_matches (target : string) (x : CompletedSet) : bool :=
  match c_move x with
  | Some m =>
      JS.includes (JS.toLowerCase m)
        (JS.toLowerCase (JS.split_space_0 target))
  | None => false
  end.

(** [comp.lastLoad || 0] *)
Definition load_or_zero (comp : CompletedSet) : float :=
  match lastLoad comp with
  | Some v => if JS.truthy v then v else 0
  | None => 0
  end.

(** [suggestStartingLoad(move, lastWeek)]; the caller always passes an
    array, so the [lastWeek || []] guard is the identity here. *)
Definition suggestStartingLoad (target : string) (lastWeek : list SessionLog)
  : option float :=
  match JS.find has_completed_sets (rev lastWeek) with
  | None => None
  | Some last =>
      match
        match completed last with
        | Some cs => JS.find (move_matches target) cs
        | None => None
        end
      with
      | None => None
      | Some comp =>
          let base := load_or_zero comp in
          Some (JS.Math_round (base * 1.02))
      end
  end.

(** *** Load estimator over the host's case folding

    [String.prototype.toLowerCase] folds every cased letter, not only
    A-Z.  Here it is a parameter, so that what is proved of the
    estimator holds for the host's function whatever it maps; the
    definitions above are the instance at [JS.toLowerCase], exact for
    ASCII movement names such as those of the templates. *)

Module Estimator.
Section WithHostFold.

Variable toLowerCase : string -> string.

(** [x.move?.toLowerCase?.().includes(move.split(" ")[0].toLowerCase())] *)
Definition move_matches (target : string) (x : CompletedSet) : bool :=
  match c_move x with
  | Some m =>
      JS.includes (toLowerCase m) (toLowerCase (JS.split_space_0 target))
  | None => false
  end.

(** [suggestStartingLoad(move, lastWeek)] *)
Definition suggestStartingLoad (target : string)
           (lastWeek : list SessionLog) : option float :=
  match JS.find has_completed_sets (rev lastWeek) with
  | None => None
  | Some last =>
      match
        match completed last with
        | Some cs => JS.find (move_matches target) cs
        | None => None
        end
      with
      | None => None
      | Some comp =>
          let base := load_or_zero comp in
          Some (JS.Math_round (base * 1.02))
      end
  end.

End WithHostFold.
End Estimator.

(** *** Plan generator *)

Record Plan := {
  p_phase : phase;
  p_weekIndex : Z;
  plan : list Session;
  notes : string
}.

Definition plan_block (lastWeek : list SessionLog) (b : TemplateBlock)
  : Block :=
  {| move := t_move b; alt := t_alt b; scheme := t_scheme b;
     targetRPE := t_targetRPE b; slots := t_slots b;
     loadSuggestion :=
       if JS.geb (t_targetRPE b) 8
       then suggestStartingLoad (t_move b) lastWeek else None |}.

Definition plan_session (p : Profile) (constraints : Constraints)
           (lastWeek : list SessionLog) (id : string) (d : weekday)
  : Session :=
  let focus := chooseFocus d p in
  let tmpl := templates focus constraints in
  {| s_id := id; day := d; title := t_title tmpl; warmup := t_warmup tmpl;
     blocks := map (plan_block lastWeek) (t_blocks tmpl);
     finisher := t_finisher tmpl;
     cues := ["Own the positions."; "Leave 1–2 reps in the tank."] |}.

(** The [k]-th call of [shortId()] returns [shortId k]: the random source
    is an explicit stream of draws, consumed one per planned day. *)
Fixpoint plan_days (shortId : nat -> string) (k : nat) (p : Profile)
         (constraints : Constraints) (lastWeek : list SessionLog)
         (days : list weekday) : list Session :=
  match days with
  | [] => []
  | d :: ds =>
      plan_session p constraints lastWeek (shortId k) d
        :: plan_days shortId (S k) p constraints lastWeek ds
  end.

(** [aiGenerateSessions]: the value the returned promise resolves to. *)
Definition aiGenerateSessions (shortId : nat -> string) (p : Profile)
           (readiness : Readiness) (lastWeek : list SessionLog)
           (ph : phase) (wk : Z) : Plan :=
  let constraints := inferConstraints p in
  {| p_phase := ph; p_weekIndex := wk;
     plan := plan_days shortId 0 p constraints lastWeek (daysAvailable p);
     notes := match ph with
              | Deload => "Keep effort @6–7, cut 30% volume."
              | _ => ""
              end |}.

(** *** Derived KPIs *)

Definition in_week (w : Z) (l : SessionLog) : bool := (l_weekIndex l =? w)%Z.

Definition adherence (st : State) : float :=
  let planned := List.length (sessions st) in
  let completed :=
    List.length (filter (in_week (weekIndex st)) (sessionLogs st)) in
  if (planned =? 0)%nat then 0
  else JS.Math_round
         ((JS.float_of_nat completed / JS.float_of_nat planned) * 100).

Record RedFlag := {
  f_id : string;
  f_date : string;
  reason : string
}.

(** [(l.rpeAvg ?? 0) >= 9] *)
Definition high_rpe (l : SessionLog) : bool :=
  JS.geb (match rpeAvg l with Some v => v | None => 0 end) 9.

Definition flag_filter (l : SessionLog) : bool :=
  (3 <=? painFlag l)%Z || high_rpe l || missed l.

Section Triage.

(** Number-to-string conversion of the host for a binary64 value. *)
Variable Number_toString : float -> string.

Definition template_number (v : option float) : string :=
  match v with
  | Some x => Number_toString x
  | None => "undefined"
  end.

Definition flag_reason (l : SessionLog) : string :=
  if missed l then "Missed session"
  else if (3 <=? painFlag l)%Z
       then "Pain " ++ JS.Z_toString (painFlag l) ++ "/5"
       else "High RPE " ++ template_number (rpeAvg l).

Definition to_flag (l : SessionLog) : RedFlag :=
  {| f_id := l_id l; f_date := l_date l; reason := flag_reason l |}.

Definition redFlags (st : State) : list RedFlag :=
  map to_flag
    (filter flag_filter
       (filter (in_week (weekIndex st)) (sessionLogs st))).

End Triage.

(** *** Quick actions and week progression *)

Inductive action := deload | cap_sets | swap_press.

Definition action_eqb (a b : action) : bool :=
  match a, b with
  | deload, deload | cap_sets, cap_sets | swap_press, swap_press => true
  | _, _ => false
  end.

Definition set_phase (ph : phase) (s : State) : State :=
  {| profile := profile s; currentPhase := ph; weekIndex := weekIndex s;
     sessions := sessions s; sessionLogs := sessionLogs s;
     readinessToday := readinessToday s |}.

Definition set_sessions (ss : list Session) (s : State) : State :=
  {| profile := profile s; currentPhase := currentPhase s;
     weekIndex := weekIndex s; sessions := ss;
     sessionLogs := sessionLogs s; readinessToday := readinessToday s |}.

Definition set_blocks (bs : list Block) (sess : Session) : Session :=
  {| s_id := s_id sess; day := day sess; title := title sess;
     warmup := warmup sess; blocks := bs; finisher := finisher sess;
     cues := cues sess |}.

(** [{ ...b, scheme: b.scheme + " (−1 set)",
       slots: Math.max(1, (b.slots || 2) - 1) }] *)
Definition cap_block (b : Block) : Block :=
  {| move := move b; alt := alt b;
     scheme := scheme b ++ " (−1 set)";
     targetRPE := targetRPE b;
     slots := Z.max 1 ((if (slots b =? 0)%Z then 2 else slots b) - 1);
     loadSuggestion := loadSuggestion b |}.

(** [/press/i.test(b.move) ? { ...b, move: ..., scheme: ... } : b] *)
Definition swap_block (b : Block) : Block :=
  if JS.includes (JS.toLowerCase (move b)) "press"
  then {| move := "DB Neutral Press"; alt := alt b;
          scheme := scheme b ++ " (shoulder-safe)";
          targetRPE := targetRPE b; slots := slots b;
          loadSuggestion := loadSuggestion b |}
  else b.

Definition map_blocks (f : Block -> Block) (ss : list Session)
  : list Session :=
  map (fun sess => set_blocks (map f (blocks sess)) sess) ss.

(** [applyQuickAction(type)]: three consecutive [if] statements, each a
    state update; toasts and timers are display only and left out. *)
Definition applyQuickAction (type : action) (s : State) : State :=
  let s := if action_eqb type deload then set_phase Deload s else s in
  let s := if action_eqb type cap_sets
           then set_sessions (map_blocks cap_block (sessions s)) s else s in
  let s := if action_eqb type swap_press
           then set_sessions (map_blocks swap_block (sessions s)) s else s in
  s.

Definition phase_eqb (a b : phase) : bool :=
  match a, b with
  | Base, Base | Build, Build | Peak, Peak | Deload, Deload => true
  | _, _ => false
  end.

(** [nextWeek()]; [%] is the truncating remainder. *)
Definition nextWeek (state : State) : State :=
  let nextIndex := (weekIndex state + 1)%Z in
  let nextPhase := currentPhase state in
  let nextPhase :=
    if (Z.rem nextIndex 4 =? 0)%Z then Deload
    else if phase_eqb (currentPhase state) Base then Build
    else if phase_eqb (currentPhase state) Build then Peak
    else if phase_eqb (currentPhase state) Deload then Base
    else nextPhase in
  {| profile := profile state; currentPhase := nextPhase;
     weekIndex := nextIndex; sessions := [];
     sessionLogs := sessionLogs state;
     readinessToday := readinessToday state |}.

(** *** Remaining helpers and handlers *)

(** [average(arr)]; [None] is a missing argument. *)
Definition average (arr : option (list float)) : float :=
  let v := filter JS.isFinite (match arr with Some a => a | None => [] end) in
  if (List.length v =? 0)%nat then 0
  else JS.Math_round ((JS.sum v / JS.float_of_nat (List.length v)) * 10) / 10.

(** The object a session card hands to [logSession]. *)
Record LogPayload := {
  lp_completed : option (list CompletedSet);
  lp_painFlag : Z;
  lp_notes : string
}.

Definition set_logs (ls : list SessionLog) (s : State) : State :=
  {| profile := profile s; currentPhase := currentPhase s;
     weekIndex := weekIndex s; sessions := sessions s;
     sessionLogs := ls; readinessToday := readinessToday s |}.

Definition set_profile (p : Profile) (s : State) : State :=
  {| profile := p; currentPhase := currentPhase s;
     weekIndex := weekIndex s; sessions := sessions s;
     sessionLogs := sessionLogs s; readinessToday := readinessToday s |}.

Definition set_readiness (r : Readiness) (s : State) : State :=
  {| profile := profile s; currentPhase := currentPhase s;
     weekIndex := weekIndex s; sessions := sessions s;
     sessionLogs := sessionLogs s; readinessToday := r |}.

(** [Number(c.rpe) || 0] *)
Definition rpe_or_zero (c : CompletedSet) : float :=
  if JS.truthy (c_rpe c) then c_rpe c else 0.

(** The entry [logSession] builds: [id] is the draw of [shortId()] and
    [today] the date string of the clock.  The spread of [log] comes
    last, so the pain flag is the payload's own; the payload has no
    [missed] key, which reads as false. *)
Definition log_entry (id today : string) (wk : Z) (log : LogPayload)
  : SessionLog :=
  let rpeAvg :=
    average (option_map (map rpe_or_zero) (lp_completed log)) in
  {| l_id := id; l_weekIndex := wk; l_date := today;
     completed := lp_completed log; rpeAvg := Some rpeAvg;
     painFlag := lp_painFlag log; l_notes := lp_notes log;
     missed := false |}.

(** [logSession(session, log)]; the session argument is not read. *)
Definition logSession (id today : string) (session : Session)
           (log : LogPayload) (s : State) : State :=
  let entry := log_entry id today (weekIndex s) log in
  set_logs (sessionLogs s ++ [entry])%list s.

(** The form a session card starts with:
    one row [{ move, sets: 0, reps: 0, rpe: 7, lastLoad: 0 }] per block. *)
Definition initial_log (session : Session) : LogPayload :=
  {| lp_completed :=
       Some (map (fun b => {| c_move := Some (move b); c_sets := 0;
                              c_reps := 0; c_rpe := 7;
                              lastLoad := Some 0 |})
                 (blocks session));
     lp_painFlag := 0; lp_notes := "" |}.

(** The patches the log form applies to a row. *)
Inductive row_patch :=
| patch_sets (n : Z)
| patch_reps (n : Z)
| patch_lastLoad (v : float)
| patch_rpe (v : float).

(** [{ ...c, ...patch }] *)
Definition apply_patch (c : CompletedSet) (patch : row_patch)
  : CompletedSet :=
  match patch with
  | patch_sets n =>
      {| c_move := c_move c; c_sets := n; c_reps := c_reps c;
         c_rpe := c_rpe c; lastLoad := lastLoad c |}
  | patch_reps n =>
      {| c_move := c_move c; c_sets := c_sets c; c_reps := n;
         c_rpe := c_rpe c; lastLoad := lastLoad c |}
  | patch_lastLoad v =>
      {| c_move := c_move c; c_sets := c_sets c; c_reps := c_reps c;
         c_rpe := c_rpe c; lastLoad := Some v |}
  | patch_rpe v =>
      {| c_move := c_move c; c_sets := c_sets c; c_reps := c_reps c;
         c_rpe := v; lastLoad := lastLoad c |}
  end.

(** [updateCompleted(i, patch)] on the form of a session card, whose
    [completed] is always an array. *)
Definition updateCompleted (i : nat) (patch : row_patch)
           (rows : list CompletedSet) : list CompletedSet :=
  JS.map_idx (fun c idx => if (idx =? i)%nat then apply_patch c patch else c)
    rows.

(** [generateWeek()]: the plan of the current week from the logs of the
    week before; the model's generator cannot throw, so the [catch]
    branch, which leaves the state as it is, is not reached. *)
Definition generateWeek (shortId : nat -> string) (s : State) : State :=
  let res :=
    aiGenerateSessions shortId (profile s) (readinessToday s)
      (filter (in_week (weekIndex s - 1)) (sessionLogs s))
      (currentPhase s) (weekIndex s) in
  set_sessions (plan res) s.

(** The chip toggle of the onboarding form:
    [l.includes(day) ? l.filter((d) => d !== day) : [...l, day]]. *)
Definition toggle (d : weekday) (l : list weekday) : list weekday :=
  if JS.arr_includes weekday_eqb l (Some d)
  then filter (fun x => negb (weekday_eqb x d)) l
  else (l ++ [d])%list.

Definition toggleDay (d : weekday) (p : Profile) : Profile :=
  {| name := name p; email := email p; prof_goal := prof_goal p;
     trainingAgeYrs := trainingAgeYrs p;
     daysAvailable := toggle d (daysAvailable p);
     minutesPerSession := minutesPerSession p; equipment := equipment p;
     bjjDays := bjjDays p; injuries := injuries p; prefs := prefs p |}.

Definition toggleBJJ (d : weekday) (p : Profile) : Profile :=
  {| name := name p; email := email p; prof_goal := prof_goal p;
     trainingAgeYrs := trainingAgeYrs p;
     daysAvailable := daysAvailable p;
     minutesPerSession := minutesPerSession p; equipment := equipment p;
     bjjDays := toggle d (bjjDays p); injuries := injuries p;
     prefs := prefs p |}.

(** The other inputs of the onboarding form, each a
    [setP({ ...p, field: value })]; the equipment boxes set one key of
    [p.equipment], the injury editor hands over its whole list. *)
Inductive equipment_key :=
| k_barbell | k_rack | k_dumbbells | k_kettlebells | k_bands | k_sled.

Inductive profile_edit :=
| edit_name (v : string)
| edit_email (v : string)
| edit_goal (v : goal)
| edit_trainingAgeYrs (v : Z)
| edit_minutesPerSession (v : Z)
| edit_equipment (k : equipment_key) (checked : bool)
| edit_injuries (v : list Injury).

Definition set_equipment (k : equipment_key) (checked : bool)
           (e : Equipment) : Equipment :=
  {| barbell := match k with k_barbell => checked | _ => barbell e end;
     rack := match k with k_rack => checked | _ => rack e end;
     dumbbells := match k with k_dumbbells => checked | _ => dumbbells e end;
     kettlebells :=
       match k with k_kettlebells => checked | _ => kettlebells e end;
     bands := match k with k_bands => checked | _ => bands e end;
     sled := match k with k_sled => checked | _ => sled e end |}.

Definition edit_profile (ed : profile_edit) (p : Profile) : Profile :=
  {| name := match ed with edit_name v => v | _ => name p end;
     email := match ed with edit_email v => v | _ => email p end;
     prof_goal := match ed with edit_goal v => v | _ => prof_goal p end;
     trainingAgeYrs :=
       match ed with edit_trainingAgeYrs v => v | _ => trainingAgeYrs p end;
     daysAvailable := daysAvailable p;
     minutesPerSession :=
       match ed with
       | edit_minutesPerSession v => v
       | _ => minutesPerSession p
       end;
     equipment :=
       match ed with
       | edit_equipment k checked => set_equipment k checked (equipment p)
       | _ => equipment p
       end;
     bjjDays := bjjDays p;
     injuries := match ed with edit_injuries v => v | _ => injuries p end;
     prefs := prefs p |}.

(** The user actions wired in the App component, each with the values
    the environment supplies (identifier draws, the date).  The forms
    pass their edited copy up through [onChange], which replaces
    [state.profile] or [state.readinessToday]. *)
Inductive event :=
| EvGenerate (shortId : nat -> string)
| EvLog (id today : string) (session : Session) (log : LogPayload)
| EvQuick (a : action)
| EvNextWeek
| EvToggleDay (d : weekday)
| EvToggleBJJ (d : weekday)
| EvProfile (ed : profile_edit)
| EvReadiness (r : Readiness).

Definition handle (e : event) (s : State) : State :=
  match e with
  | EvGenerate shortId => generateWeek shortId s
  | EvLog id today session log => logSession id today session log s
  | EvQuick a => applyQuickAction a s
  | EvNextWeek => nextWeek s
  | EvToggleDay d => set_profile (toggleDay d (profile s)) s
  | EvToggleBJJ d => set_profile (toggleBJJ d (profile s)) s
  | EvProfile ed => set_profile (edit_profile ed (profile s)) s
  | EvReadiness r => set_readiness r s
  end.

(** The state after a sequence of actions, oldest first. *)
Definition run (es : list event) (s : State) : State :=
  fold_left (fun st e => handle e st) es s.

(** *** Default state *)

Definition defaultProfile : Profile :=
  {| name := ""; email := ""; prof_goal := bjj_strength;
     trainingAgeYrs := 3; daysAvailable := [Mon; Thu];
     minutesPerSession := 60;
     equipment := {| barbell := true; rack := true; dumbbells := true;
                     kettlebells := true; bands := true; sled := false |};
     bjjDays := [Tue; Fri]; injuries := [];
     prefs := {| barbellBias := true; dislikes := [] |} |}.

Definition defaultState : State :=
  {| profile := defaultProfile; currentPhase := Base; weekIndex := 1;
     sessions := []; sessionLogs := [];
     readinessToday := {| sleep := 7; soreness := 3; stress := 3;
                          hrv := None; rd_bjjLoad := moderate |} |}.

(* ------------------------------------------------------------------ *)
(** ** Specification-side definitions *)

(** The calendar successor, Sunday wrapping to Monday. *)
Definition next_calendar_day (d : weekday) : weekday :=
  match d with
  | Mon => Tue | Tue => Wed | Wed => Thu | Thu => Fri
  | Fri => Sat | Sat => Sun | Sun => Mon
  end.

Definition is_bjj_day (p : Profile) (d : weekday) : bool :=
  existsb (weekday_eqb d) (bjjDays p).

(** The four load rules as independent percentage contributions. *)
Definition pain_pct (pain : bool) : Z := if pain then -7 else 0.
Definition fresh_pct (r : Readiness) : Z :=
  if JS.geb (sleep r) 7 && (soreness r <=? 3) && (stress r <=? 3)
  then 3 else 0.
Definition sore_pct (r : Readiness) : Z :=
  if JS.geb (soreness r) 4 then -2 else 0.
Definition stress_pct (r : Readiness) : Z :=
  if JS.geb (stress r) 4 then -1 else 0.

Definition total_delta_pct (r : Readiness) (pain : bool) : Z :=
  pain_pct pain + fresh_pct r + sore_pct r + stress_pct r.

(** The phase rule of the progression state machine, by precedence. *)
Definition phase_rule (wk : Z) (ph : phase) : phase :=
  if ((wk + 1) mod 4 =? 0)%Z then Deload
  else match ph with
       | Base => Build
       | Build => Peak
       | Deload => Base
       | Peak => Peak
       end.

(** What cap_sets does to one block: annotation appended, slot count
    decremented and floored at one, nothing else touched. *)
Definition capped (b b' : Block) : Prop :=
  scheme b' = scheme b ++ " (−1 set)"
  /\ slots b' = Z.max 1 (slots b - 1)
  /\ move b' = move b /\ alt b' = alt b
  /\ targetRPE b' = targetRPE b /\ loadSuggestion b' = loadSuggestion b.

(** Two sessions that differ at most in their blocks, which are related
    pairwise by [R]. *)
Definition blocks_related (R : Block -> Block -> Prop) (s s' : Session)
  : Prop :=
  s_id s' = s_id s /\ day s' = day s /\ title s' = title s
  /\ warmup s' = warmup s /\ finisher s' = finisher s /\ cues s' = cues s
  /\ Forall2 R (blocks s) (blocks s').

(** A block of slot count 3 after two cap_sets. *)
Definition capped_twice_from_3 (b b' : Block) : Prop :=
  slots b = 3%Z ->
  slots b' = 1%Z /\ scheme b' = (scheme b ++ " (−1 set)") ++ " (−1 set)".

(** The advisory text as the specification words it. *)
Definition spec_deload_notes : string :=
  "reduce volume ~30%, cap effort at 6-7".

(** Number of logs recorded under week index [w]. *)
Fixpoint logged_count (w : Z) (logs : list SessionLog) : nat :=
  match logs with
  | [] => 0
  | l :: ls =>
      ((if (l_weekIndex l =? w)%Z then 1 else 0) + logged_count w ls)%nat
  end.

(** Adherence as the specification writes it,
    round(100 * loggedCount / plannedCount), in the program's own
    arithmetic and in the order written. *)
Definition adherence_as_specified (planned logged : nat) : float :=
  if (planned =? 0)%nat then 0
  else JS.Math_round
         (100 * JS.float_of_nat logged / JS.float_of_nat planned).

(** The same percentage over the rationals: the integer nearest to
    100 * logged / planned, ties upwards. *)
Definition exact_percentage (planned logged : nat) : Z :=
  ((2 * (100 * Z.of_nat logged) + Z.of_nat planned)
   / (2 * Z.of_nat planned))%Z.

(** The red-flag criterion: pain at 3 or more, or an average observed
    effort of 9 or more, or a missed session. *)
Definition is_red_flag (l : SessionLog) : Prop :=
  (3 <= painFlag l)%Z
  \/ (exists v, rpeAvg l = Some v /\ (9 <=? v) = true)
  \/ missed l = true.

Section TriageSpec.

Variable Number_toString : float -> string.

(** The one reason of a flagged log, by priority missed > pain >
    high effort. *)
Inductive reason_for (l : SessionLog) : string -> Prop :=
| reason_missed :
    missed l = true ->
    reason_for l "Missed session"
| reason_pain :
    missed l = false -> (3 <= painFlag l)%Z ->
    reason_for l ("Pain " ++ JS.Z_toString (painFlag l) ++ "/5")
| reason_effort v :
    missed l = false -> (painFlag l < 3)%Z ->
    rpeAvg l = Some v -> (9 <=? v) = true ->
    reason_for l ("High RPE " ++ Number_toString v).

(** The flags of a log list for week [w]: one flag for each log of
    that week that meets the criterion, none for any other log. *)
Inductive flags_of (w : Z) : list SessionLog -> list RedFlag -> Prop :=
| flags_nil : flags_of w [] []
| flags_hit l ls fs r :
    l_weekIndex l = w -> is_red_flag l -> reason_for l r ->
    flags_of w ls fs ->
    flags_of w (l :: ls)
      ({| f_id := l_id l; f_date := l_date l; reason := r |} :: fs)
| flags_skip l ls fs :
    ~ (l_weekIndex l = w /\ is_red_flag l) ->
    flags_of w ls fs ->
    flags_of w (l :: ls) fs.

End TriageSpec.

(** Whether a pair (planned, logged) gives the same adherence under the
    source's formula, the specification's formula and exact arithmetic;
    and whether all pairs with 1 <= planned <= pmax and logged <= cmax
    do. *)
Definition adherence_agrees (planned logged : nat) : bool :=
  let a := JS.Math_round
             ((JS.float_of_nat logged / JS.float_of_nat planned) * 100) in
  PrimFloat.Leibniz.eqb a (adherence_as_specified planned logged)
  && PrimFloat.Leibniz.eqb a (JS.float_of_Z (exact_percentage planned logged)).

Definition adherence_agrees_upto (pmax cmax : nat) : bool :=
  forallb (fun p => forallb (adherence_agrees p) (seq 0 (S cmax)))
    (seq 1 pmax).

(** A log entry with at least one completed-set record. *)
Definition has_sets (l : SessionLog) : Prop :=
  exists c cs, completed l = Some (c :: cs).

(** [tok] is the first space-delimited token of [target]: it holds no
    space and [target] is [tok], or [tok] followed by a space and more. *)
Definition first_token (target tok : string) : Prop :=
  (forall a b, tok <> a ++ " " ++ b)
  /\ (target = tok \/ exists rest, target = tok ++ " " ++ rest).

(** The movement name of [x], lower-cased, contains the lower-cased
    first token of [target]. *)
Definition fuzzy_match (target : string) (x : CompletedSet) : Prop :=
  exists m tok a b,
    c_move x = Some m /\ first_token target tok
    /\ JS.toLowerCase m = a ++ JS.toLowerCase tok ++ b.

(** [l] is the first entry with completed sets when [logs] is read from
    its most recent (last) entry backwards. *)
Definition most_recent_with_sets (logs : list SessionLog) (l : SessionLog)
  : Prop :=
  exists older newer,
    logs = (older ++ l :: newer)%list /\ has_sets l
    /\ forall x, In x newer -> ~ has_sets x.

(** [c] is the first completed set of [l] that matches [target]. *)
Definition first_match (target : string) (l : SessionLog) (c : CompletedSet)
  : Prop :=
  exists before after,
    completed l = Some (before ++ c :: after)%list /\ fuzzy_match target c
    /\ forall x, In x before -> ~ fuzzy_match target x.

(** No completed set of [l] matches [target]. *)
Definition no_match (target : string) (l : SessionLog) : Prop :=
  forall cs x, completed l = Some cs -> In x cs -> ~ fuzzy_match target x.

(** The result once the scanned entry is known. *)
Definition suggestion_in (target : string) (l : SessionLog) : option float :=
  match
    match completed l with
    | Some cs => JS.find (move_matches target) cs
    | None => None
    end
  with
  | None => None
  | Some comp => Some (JS.Math_round (load_or_zero comp * 1.02))
  end.

(** The recorded load is missing, zero or otherwise falsy. *)
Definition load_falsy (c : CompletedSet) : Prop :=
  lastLoad c = None \/ exists v, lastLoad c = Some v /\ JS.truthy v = false.

(** Whether the suggestion for a whole-number load [n] is at least [n],
    and whether it is for every load from 0 to [nmax]. *)
Definition suggestion_not_below (n : nat) : bool :=
  let x := JS.float_of_nat n in
  x <=? JS.Math_round ((if JS.truthy x then x else 0) * 1.02).

Definition suggestion_not_below_upto (nmax : nat) : bool :=
  forallb suggestion_not_below (seq 0 (S nmax)).

(** [s] with [ann] appended [n] times. *)
Fixpoint append_times (n : nat) (ann s : string) : string :=
  match n with
  | O => s
  | S n' => append_times n' ann s ++ ann
  end.

(** The movement name contains "press" in any letter case. *)
Definition names_press (b : Block) : Prop :=
  exists a c, JS.toLowerCase (move b) = a ++ "press" ++ c.

(** The phase that belongs to a week index once the four-week cycle has
    been entered. *)
Definition phase_of_week (wk : Z) : phase :=
  if (wk mod 4 =? 0)%Z then Deload
  else if (wk mod 4 =? 1)%Z then Base
  else if (wk mod 4 =? 2)%Z then Build
  else Peak.

Definition in_cycle (s : State) : Prop :=
  currentPhase s = phase_of_week (weekIndex s).

(** What every state reached from the default state satisfies. *)
Definition state_ok (s : State) : Prop :=
  (1 <= weekIndex s)%Z
  /\ (forall l, In l (sessionLogs s) ->
        (1 <= l_weekIndex l <= weekIndex s)%Z /\ missed l = false)
  /\ NoDup (daysAvailable (profile s))
  /\ NoDup (bjjDays (profile s))
  /\ (List.length (sessions s) <= 7)%nat
  /\ (forall sess b, In sess (sessions s) -> In b (blocks sess) ->
        (1 <= slots b)%Z).

(** The logs [generateWeek] hands to the generator. *)
Definition lastWeekLogs (s : State) : list SessionLog :=
  filter (in_week (weekIndex s - 1)) (sessionLogs s).

(** Whether the unedited form of a session with [n] blocks yields an
    average effort below the red-flag threshold, and whether it does for
    every [n] up to [nmax]. *)
Definition unedited_average_low (n : nat) : bool :=
  negb (JS.geb (average (Some (repeat 7 n))) 9).

Definition unedited_average_low_upto (nmax : nat) : bool :=
  forallb unedited_average_low (seq 0 (S nmax)).

(** The load formula of [adjustLoad] for a percentage [d], evaluated
    as the source evaluates it: binary64, quotient first. *)
Definition adjust_formula (prev : float) (d : Z) : float :=
  JS.Math_max 0 (JS.Math_round (prev * (1 + JS.float_of_Z d / 100))).

(** The same over the rationals, for a whole load [n]: the integer
    nearest to n * (100 + d) / 100, halves upwards, floored at 0. *)
Definition exact_adjusted (n d : Z) : Z :=
  Z.max 0 ((2 * (n * (100 + d)) + 100) / 200)%Z.

(** n * (100 + d) / 100 lies exactly halfway between two integers. *)
Definition exact_half (n d : Z) : bool :=
  ((n * (100 + d)) mod 100 =? 50)%Z.

(** Whether the binary64 result for load [n] and percentage [d] is the
    exact one, or, at an exact half only, possibly one below it. *)
Definition adjusted_close (n d : Z) : bool :=
  let a := adjust_formula (JS.float_of_Z n) d in
  let e := exact_adjusted n d in
  if exact_half n d
  then PrimFloat.Leibniz.eqb a (JS.float_of_Z e)
       || PrimFloat.Leibniz.eqb a (JS.float_of_Z (e - 1))
  else PrimFloat.Leibniz.eqb a (JS.float_of_Z e).

Definition zrange (lo : Z) (len : nat) : list Z :=
  map (fun k => (lo + Z.of_nat k)%Z) (seq 0 len).

(** Loads -500 to 2000 against percentages -10 to 3. *)
Definition adjusted_close_all : bool :=
  forallb (fun d => forallb (fun n => adjusted_close n d)
                      (zrange (-500) 2501))
    (zrange (-10) 14).

(** The specification-side notions of the estimator, over the host's
    case folding. *)
Module EstimatorSpec.
Section WithHostFold.

Variable toLowerCase : string -> string.

(** The movement name of [x], lower-cased, contains the lower-cased
    first token of [target]. *)
Definition fuzzy_match (target : string) (x : CompletedSet) : Prop :=
  exists m tok a b,
    c_move x = Some m /\ first_token target tok
    /\ toLowerCase m = a ++ toLowerCase tok ++ b.

(** [c] is the first completed set of [l] that matches [target]. *)
Definition first_match (target : string) (l : SessionLog) (c : CompletedSet)
  : Prop :=
  exists before after,
    completed l = Some (before ++ c :: after)%list /\ fuzzy_match target c
    /\ forall x, In x before -> ~ fuzzy_match target x.

(** No completed set of [l] matches [target]. *)
Definition no_match (target : string) (l : SessionLog) : Prop :=
  forall cs x, completed l = Some cs -> In x cs -> ~ fuzzy_match target x.

(** The result once the scanned entry is known. *)
Definition suggestion_in (target : string) (l : SessionLog) : option float :=
  match
    match completed l with
    | Some cs => JS.find (Estimator.move_matches toLowerCase target) cs
    | None => None
    end
  with
  | None => None
  | Some comp => Some (JS.Math_round (load_or_zero comp * 1.02))
  end.

End WithHostFold.
End EstimatorSpec.

(* ------------------------------------------------------------------ *)
(** ** Properties *)

Lemma weekday_eqb_sym (a b : weekday) : weekday_eqb a b = weekday_eqb b a.
Proof. destruct a, b; reflexivity. Qed.

Lemma nextDay_calendar (d : weekday) : nextDay d = Some (next_calendar_day d).
Proof. destruct d; reflexivity. Qed.

(** C1. Focus selection: Monday, Thursday and Saturday are fixed to
    lower_strength, upper_shoulder_safe and gpp whatever the BJJ schedule
    holds; every other weekday gets upper_shoulder_safe exactly when the
    cyclically next day is a BJJ day, and lower_strength otherwise. *)
Theorem chooseFocus_precedence (d : weekday) (p : Profile) :
  chooseFocus d p =
    match d with
    | Mon => lower_strength
    | Thu => upper_shoulder_safe
    | Sat => gpp
    | _ => if is_bjj_day p (next_calendar_day d)
           then upper_shoulder_safe else lower_strength
    end.
Proof.
  unfold chooseFocus, is_bjj_day.
  rewrite nextDay_calendar.
  cbn [JS.arr_includes].
  replace (existsb (fun y => weekday_eqb y (next_calendar_day d)) (bjjDays p))
    with (existsb (weekday_eqb (next_calendar_day d)) (bjjDays p)).
  - destruct d; reflexivity.
  - induction (bjjDays p) as [|b bs IH]; cbn [existsb]; [reflexivity|].
    now rewrite IH, weekday_eqb_sym.
Qed.

Lemma adjustLoad_formula (prev : float) (r : Readiness) (pain : bool) :
  adjustLoad prev r pain = adjust_formula prev (total_delta_pct r pain).
Proof.
  unfold adjustLoad, adjust_formula, total_delta_pct, pain_pct, fresh_pct,
    sore_pct, stress_pct.
  destruct pain;
    destruct (JS.geb (sleep r) 7 && (soreness r <=? 3) && (stress r <=? 3))%bool;
    destruct (JS.geb (soreness r) 4);
    destruct (JS.geb (stress r) 4);
    reflexivity.
Qed.

Lemma total_delta_pct_range (r : Readiness) (pain : bool) :
  (-10 <= total_delta_pct r pain <= 3)%Z.
Proof.
  unfold total_delta_pct, pain_pct, fresh_pct, sore_pct, stress_pct.
  destruct pain;
    destruct (JS.geb (sleep r) 7 && (soreness r <=? 3) && (stress r <=? 3))%bool;
    destruct (JS.geb (soreness r) 4);
    destruct (JS.geb (stress r) 4);
    lia.
Qed.

Lemma In_zrange (lo : Z) (len : nat) (z : Z) :
  (lo <= z < lo + Z.of_nat len)%Z -> In z (zrange lo len).
Proof.
  intros H. unfold zrange. apply in_map_iff.
  exists (Z.to_nat (z - lo)). split; [lia|]. apply in_seq. lia.
Qed.

Lemma adjusted_close_checked : adjusted_close_all = true.
Proof. vm_compute. reflexivity. Qed.

Lemma adjusted_close_at (n d : Z) :
  (-500 <= n <= 2000)%Z -> (-10 <= d <= 3)%Z -> adjusted_close n d = true.
Proof.
  intros Hn Hd. generalize adjusted_close_checked.
  unfold adjusted_close_all. rewrite forallb_forall. intros H.
  assert (Hin : In d (zrange (-10) 14)) by (apply In_zrange; lia).
  specialize (H d Hin).
  rewrite forallb_forall in H. apply H, In_zrange. lia.
Qed.

(** C2, as stated, fails: for a load of 250 with pain and nothing else
    the percentage is -7 and 250 * (1 - 7/100) = 232.5, whose rounding is
    233; the source returns 232, because 1 + (-7)/100 is the binary64
    number 0.92999999999999994 and its product with 250 is
    232.49999999999997. *)
Lemma adjustLoad_differs_from_exact_formula :
  let r := {| sleep := 6; soreness := 3; stress := 3; hrv := None;
              rd_bjjLoad := moderate |} in
  total_delta_pct r true = (-7)%Z
  /\ 1 + JS.float_of_Z (-7) / 100 = 0.92999999999999994
  /\ 250 * (1 + JS.float_of_Z (-7) / 100) = 232.49999999999997
  /\ adjustLoad 250 r true = 232
  /\ exact_adjusted 250 (-7) = 233%Z
  /\ adjustLoad 250 r true
     <> JS.float_of_Z (exact_adjusted 250 (total_delta_pct r true)).
Proof.
  cbv zeta. repeat split; try (vm_compute; reflexivity).
  match goal with
  | |- ?a <> ?b =>
      assert (G : (a =? 232) = true /\ (b =? 232) = false)
        by (split; vm_compute; reflexivity);
      intros H; rewrite H in G; destruct G; congruence
  end.
Qed.

(** C2, amended. adjustLoad returns
    Math.max(0, Math.round(prev * (1 + delta / 100))) evaluated in binary64
    in that order, delta being the sum of the independent contributions
    (-7 pain, +3 rested and fresh, -2 sore, -1 stressed).  For a whole
    load from 0 to 2000 the result is the integer nearest to
    prev * (100 + delta) / 100, except that at an exact half it is that
    integer (halves upwards) or the one below; for a whole load from -500
    to -1 it is 0.  The documented examples give 103 and 90. *)
Theorem adjustLoad_binary64_formula :
  (forall (prev : float) (r : Readiness) (pain : bool),
      adjustLoad prev r pain = adjust_formula prev (total_delta_pct r pain))
  /\ (forall (n : Z) (r : Readiness) (pain : bool),
         (0 <= n <= 2000)%Z ->
         let d := total_delta_pct r pain in
         let a := adjustLoad (JS.float_of_Z n) r pain in
         (exact_half n d = false -> a = JS.float_of_Z (exact_adjusted n d))
         /\ (exact_half n d = true ->
             a = JS.float_of_Z (exact_adjusted n d)
             \/ a = JS.float_of_Z (exact_adjusted n d - 1)))
  /\ (forall (n : Z) (r : Readiness) (pain : bool),
         (-500 <= n < 0)%Z -> adjustLoad (JS.float_of_Z n) r pain = 0)
  /\ (forall h b,
         adjustLoad 100
           {| sleep := 8; soreness := 2; stress := 2;
              hrv := h; rd_bjjLoad := b |} false = 103)
  /\ (forall h b,
         adjustLoad 100
           {| sleep := 5; soreness := 5; stress := 5;
              hrv := h; rd_bjjLoad := b |} true = 90).
Proof.
  split; [exact adjustLoad_formula|].
  split; [|split; [|split; intros; vm_compute; reflexivity]].
  - intros n r pain Hn d a. subst a. rewrite adjustLoad_formula. fold d.
    pose proof (adjusted_close_at n d ltac:(lia)
                  (total_delta_pct_range r pain)) as H.
    unfold adjusted_close in H.
    destruct (exact_half n d).
    + split; [discriminate|]. intros _.
      apply orb_true_iff in H.
      destruct H as [H|H]; [left | right];
        now apply FloatAxioms.Leibniz.eqb_spec.
    + split; [|discriminate]. intros _.
      now apply FloatAxioms.Leibniz.eqb_spec.
  - intros n r pain Hn. rewrite adjustLoad_formula.
    set (d := total_delta_pct r pain).
    pose proof (adjusted_close_at n d ltac:(lia)
                  (total_delta_pct_range r pain)) as H.
    pose proof (total_delta_pct_range r pain) as Hd. fold d in Hd.
    unfold adjusted_close in H.
    assert (E : exact_adjusted n d = 0%Z).
    { unfold exact_adjusted. apply Z.max_l.
      apply Z.lt_succ_r.
      apply Z.div_lt_upper_bound; [lia | nia]. }
    assert (F : adjust_formula (JS.float_of_Z n) d = 0
                \/ adjust_formula (JS.float_of_Z n) d = JS.float_of_Z (-1)).
    { rewrite E in H. destruct (exact_half n d).
      - apply orb_true_iff in H.
        destruct H as [H|H]; [left | right];
          now apply FloatAxioms.Leibniz.eqb_spec.
      - left. now apply FloatAxioms.Leibniz.eqb_spec. }
    destruct F as [F|F]; [exact F|].
    exfalso. revert F. unfold adjust_formula.
    generalize (JS.Math_round (JS.float_of_Z n * (1 + JS.float_of_Z d / 100))).
    intros y Hy.
    assert (G : (JS.Math_max 0 y <? 0) = false).
    { unfold JS.Math_max.
      destruct (is_nan 0 || is_nan y)%bool; [reflexivity|].
      destruct (y <? 0) eqn:Ey; [reflexivity|].
      destruct (0 <? y) eqn:Ey'; [exact Ey|].
      destruct (is_zero 0 && get_sign 0)%bool; [exact Ey | reflexivity]. }
    rewrite Hy in G. vm_compute in G. discriminate G.
Qed.

Lemma adjustLoad_binary64_formula_witness :
  let r := {| sleep := 6; soreness := 3; stress := 3; hrv := None;
              rd_bjjLoad := moderate |} in
  adjustLoad (JS.float_of_Z 200) r true
  = JS.float_of_Z (exact_adjusted 200 (total_delta_pct r true))
  /\ (adjustLoad (JS.float_of_Z 250) r true
      = JS.float_of_Z (exact_adjusted 250 (total_delta_pct r true))
      \/ adjustLoad (JS.float_of_Z 250) r true
         = JS.float_of_Z (exact_adjusted 250 (total_delta_pct r true) - 1))
  /\ adjustLoad (JS.float_of_Z (-40)) r true = 0.
Proof.
  intros r. split; [|split].
  - apply (proj1 (proj1 (proj2 adjustLoad_binary64_formula) 200%Z r true
                    ltac:(lia))).
    reflexivity.
  - apply (proj2 (proj1 (proj2 adjustLoad_binary64_formula) 250%Z r true
                    ltac:(lia))).
    reflexivity.
  - apply (proj1 (proj2 (proj2 adjustLoad_binary64_formula)) (-40)%Z r true).
    lia.
Defined.

(* ------------------------------------------------------------------ *)
(** *** Progression state machine *)

Lemma rem4_mod4 (z : Z) : (Z.rem z 4 =? 0)%Z = (z mod 4 =? 0)%Z.
Proof.
  destruct (Z.eqb_spec (Z.rem z 4) 0) as [H|H];
    destruct (Z.eqb_spec (z mod 4) 0) as [H'|H']; try reflexivity.
  - apply Z.rem_mod_eq_0 in H; [contradiction | lia].
  - apply Z.rem_mod_eq_0 in H'; [contradiction | lia].
Qed.

(** C3. Advancing the week picks the next phase by precedence: Deload
    whenever (weekIndex+1) mod 4 = 0, whatever the current phase;
    otherwise Base to Build, Build to Peak, Deload to Base, and Peak
    stays Peak.  From week 3 the result is week 4 in Deload. *)
Theorem nextWeek_phase_rule :
  (forall st : State,
      currentPhase (nextWeek st) = phase_rule (weekIndex st) (currentPhase st))
  /\ (forall st : State,
         weekIndex st = 3%Z ->
         weekIndex (nextWeek st) = 4%Z /\ currentPhase (nextWeek st) = Deload).
Proof.
  split.
  - intros st. unfold nextWeek, phase_rule. cbn [currentPhase].
    rewrite rem4_mod4.
    destruct ((weekIndex st + 1) mod 4 =? 0)%Z; [reflexivity|].
    destruct (currentPhase st); reflexivity.
  - intros st H. unfold nextWeek. cbn [weekIndex currentPhase].
    rewrite H. split; reflexivity.
Qed.

(** From week 3 in Peak. *)
Lemma nextWeek_phase_rule_witness :
  weekIndex (set_phase Peak
               {| profile := defaultProfile; currentPhase := Base;
                  weekIndex := 3; sessions := []; sessionLogs := [];
                  readinessToday := readinessToday defaultState |}) = 3%Z
  /\ currentPhase
       (nextWeek
          (set_phase Peak
             {| profile := defaultProfile; currentPhase := Base;
                weekIndex := 3; sessions := []; sessionLogs := [];
                readinessToday := readinessToday defaultState |})) = Deload.
Proof.
  split; [reflexivity|].
  apply (proj2 nextWeek_phase_rule); reflexivity.
Defined.

Lemma iter_nextWeek_index (n : nat) (st : State) :
  weekIndex (Nat.iter n nextWeek st) = (weekIndex st + Z.of_nat n)%Z.
Proof.
  induction n as [|n IH].
  - cbn. lia.
  - change (Nat.iter (S n) nextWeek st)
      with (nextWeek (Nat.iter n nextWeek st)).
    unfold nextWeek at 1. cbn [weekIndex]. lia.
Qed.

(** C4. Every advance adds exactly one to the week index and leaves the
    session list empty; so does each of any number of repeated advances,
    whose week indices therefore strictly increase. *)
Theorem nextWeek_increments_and_clears (st : State) :
  weekIndex (nextWeek st) = (weekIndex st + 1)%Z
  /\ sessions (nextWeek st) = []
  /\ forall n : nat,
       weekIndex (Nat.iter n nextWeek st) = (weekIndex st + Z.of_nat n)%Z
       /\ weekIndex (Nat.iter (S n) nextWeek st)
          = (weekIndex (Nat.iter n nextWeek st) + 1)%Z
       /\ (weekIndex (Nat.iter n nextWeek st)
           < weekIndex (Nat.iter (S n) nextWeek st))%Z
       /\ sessions (Nat.iter (S n) nextWeek st) = [].
Proof.
  split; [reflexivity|]. split; [reflexivity|].
  intros n. rewrite !iter_nextWeek_index.
  repeat split; lia || reflexivity.
Qed.

(* ------------------------------------------------------------------ *)
(** *** Quick actions *)

Lemma cap_block_capped (b : Block) : capped b (cap_block b).
Proof.
  unfold capped, cap_block. cbn.
  repeat split.
  destruct (Z.eqb_spec (slots b) 0) as [E|E]; [rewrite E|]; lia.
Qed.

Lemma Forall2_map_r {A B : Type} (R : A -> B -> Prop) (f : A -> B)
      (l : list A) :
  (forall a, R a (f a)) -> Forall2 R l (map f l).
Proof.
  intros H. induction l as [|a l IH]; cbn; constructor; auto.
Qed.

Lemma map_blocks_related (R : Block -> Block -> Prop) (f : Block -> Block)
      (ss : list Session) :
  (forall b, R b (f b)) ->
  Forall2 (blocks_related R) ss (map_blocks f ss).
Proof.
  intros H. unfold map_blocks. apply Forall2_map_r.
  intros sess. unfold blocks_related, set_blocks. cbn.
  repeat split. now apply Forall2_map_r.
Qed.

Lemma cap_block_twice (b : Block) : capped_twice_from_3 b (cap_block (cap_block b)).
Proof.
  unfold capped_twice_from_3, cap_block. cbn. intros ->. split; reflexivity.
Qed.

Lemma map_blocks_compose (f g : Block -> Block) (ss : list Session) :
  map_blocks g (map_blocks f ss) = map_blocks (fun b => g (f b)) ss.
Proof.
  unfold map_blocks. rewrite map_map. apply map_ext.
  intros sess. unfold set_blocks. cbn. now rewrite map_map.
Qed.

(** C8. cap_sets rewrites every block of every session: the annotation is
    appended to the scheme text and the slot count becomes
    max(1, slots - 1); everything else in the state is kept.  Applied
    twice, a block of slot count 3 ends at slot count 1 with the
    annotation appended twice. *)
Theorem cap_sets_all_blocks (st : State) :
  Forall2 (blocks_related capped)
    (sessions st) (sessions (applyQuickAction cap_sets st))
  /\ currentPhase (applyQuickAction cap_sets st) = currentPhase st
  /\ weekIndex (applyQuickAction cap_sets st) = weekIndex st
  /\ sessionLogs (applyQuickAction cap_sets st) = sessionLogs st
  /\ Forall2 (blocks_related capped_twice_from_3)
       (sessions st)
       (sessions (applyQuickAction cap_sets (applyQuickAction cap_sets st))).
Proof.
  unfold applyQuickAction.
  cbn [action_eqb set_sessions sessions currentPhase weekIndex sessionLogs].
  repeat split.
  - apply map_blocks_related, cap_block_capped.
  - rewrite map_blocks_compose.
    apply map_blocks_related, cap_block_twice.
Qed.

(** One session with one three-slot block, capped twice. *)
Lemma cap_sets_all_blocks_witness :
  let b := {| move := "Back Squat"; alt := None;
              scheme := "Top set @8, backoffs 2x5 @70–75%";
              targetRPE := 8; slots := 3; loadSuggestion := None |} in
  let sess := {| s_id := "k3x9qz"; day := Mon;
                 title := "Lower Strength + Grip"; warmup := [];
                 blocks := [b]; finisher := ""; cues := [] |} in
  let st := set_sessions [sess] defaultState in
  exists b',
    map blocks
      (sessions (applyQuickAction cap_sets (applyQuickAction cap_sets st)))
    = [[b']]
    /\ slots b' = 1%Z
    /\ scheme b' = "Top set @8, backoffs 2x5 @70–75% (−1 set) (−1 set)".
Proof.
  intros b sess st.
  pose proof (proj2 (proj2 (proj2 (proj2 (cap_sets_all_blocks st))))) as H.
  cbn in H.
  inversion H as [|s0 s0' l l' Hs Hl]; subst.
  destruct Hs as (_ & _ & _ & _ & _ & _ & Hb).
  inversion Hb as [|b0 b0' m m' Hc Hm]; subst.
  destruct (Hc eq_refl) as [Hslots Hscheme].
  eexists. split; [reflexivity|]. split; [exact Hslots | exact Hscheme].
Defined.

(* ------------------------------------------------------------------ *)
(** *** Plan generator notes *)

(** C9, as stated, fails: in a Deload week the notes are not the text the
    specification quotes. *)
Lemma deload_notes_differ_from_spec_text :
  notes (aiGenerateSessions (fun _ => "k3x9qz") defaultProfile
           (readinessToday defaultState) [] Deload 4)
  <> spec_deload_notes.
Proof. cbv. discriminate. Qed.

(** C9, amended. The notes are "Keep effort @6–7, cut 30% volume." when
    the phase is Deload and the empty string for every other phase,
    whatever the profile, readiness, prior logs and week index are. *)
Theorem aiGenerateSessions_notes (shortId : nat -> string) (p : Profile)
        (r : Readiness) (lastWeek : list SessionLog) (ph : phase) (wk : Z) :
  (ph = Deload ->
   notes (aiGenerateSessions shortId p r lastWeek ph wk)
   = "Keep effort @6–7, cut 30% volume.")
  /\ (ph <> Deload ->
      notes (aiGenerateSessions shortId p r lastWeek ph wk) = "").
Proof.
  unfold aiGenerateSessions. cbn [notes].
  split; intros H; [now rewrite H|].
  destruct ph; [reflexivity | reflexivity | reflexivity | contradiction].
Qed.

(** A Deload week and a Build week of the default profile. *)
Lemma aiGenerateSessions_notes_witness :
  notes (aiGenerateSessions (fun _ => "k3x9qz") defaultProfile
           (readinessToday defaultState) [] Deload 4)
  = "Keep effort @6–7, cut 30% volume."
  /\ notes (aiGenerateSessions (fun _ => "k3x9qz") defaultProfile
              (readinessToday defaultState) [] Build 2) = "".
Proof.
  split.
  - apply (proj1 (aiGenerateSessions_notes _ _ _ _ Deload _)); reflexivity.
  - apply (proj2 (aiGenerateSessions_notes _ _ _ _ Build _)); discriminate.
Defined.

(* ------------------------------------------------------------------ *)
(** *** Triage: red flags *)

Lemma flag_filter_iff (l : SessionLog) :
  flag_filter l = true <-> is_red_flag l.
Proof.
  unfold flag_filter, is_red_flag, high_rpe, JS.geb.
  rewrite !orb_true_iff, Z.leb_le.
  split.
  - intros [[H|H]|H]; auto.
    right; left. destruct (rpeAvg l) as [v|].
    + now exists v.
    + discriminate H.
  - intros [H|[(v & E & H)|H]]; auto.
    left; right. now rewrite E.
Qed.

Lemma flag_reason_priority (N : float -> string) (l : SessionLog) :
  is_red_flag l -> reason_for N l (flag_reason N l).
Proof.
  intros H. unfold flag_reason.
  destruct (missed l) eqn:Em; [now constructor|].
  destruct (Z.leb_spec 3 (painFlag l)) as [Hp|Hp]; [now constructor|].
  destruct H as [H|[(v & E & H)|H]]; [lia | | congruence].
  rewrite E. cbn [template_number]. now apply reason_effort.
Qed.

(** C6. The red flags of a state are exactly the current-week logs with
    painFlag >= 3, or average effort >= 9, or missed; each such log
    yields one flag whose single reason follows the priority missed >
    pain > high effort.  A current-week log that is missed and has
    painFlag 5 is reported with the missed reason. *)
Theorem redFlags_criterion_and_priority (Number_toString : float -> string)
        (st : State) :
  flags_of Number_toString (weekIndex st) (sessionLogs st)
    (redFlags Number_toString st)
  /\ (forall l : SessionLog,
         In l (sessionLogs st) -> l_weekIndex l = weekIndex st ->
         missed l = true -> painFlag l = 5%Z ->
         In {| f_id := l_id l; f_date := l_date l;
               reason := "Missed session" |}
            (redFlags Number_toString st)
         /\ forall r, reason_for Number_toString l r -> r = "Missed session").
Proof.
  split.
  - unfold redFlags.
    induction (sessionLogs st) as [|l ls IH]; [constructor|].
    cbn [filter]. unfold in_week at 1.
    destruct (Z.eqb_spec (l_weekIndex l) (weekIndex st)) as [Ew|Ew].
    + cbn [filter]. destruct (flag_filter l) eqn:Ef.
      * cbn [map]. unfold to_flag at 1.
        apply flag_filter_iff in Ef.
        apply flags_hit; auto using flag_reason_priority.
      * apply flags_skip; [|exact IH].
        intros [_ H]. apply flag_filter_iff in H. congruence.
    + apply flags_skip; [|exact IH]. now intros [H _].
  - intros l Hin Hw Hm Hp. split.
    + unfold redFlags.
      replace {| f_id := l_id l; f_date := l_date l;
                 reason := "Missed session" |}
        with (to_flag Number_toString l)
        by (unfold to_flag, flag_reason; now rewrite Hm).
      apply in_map, filter_In. split.
      * apply filter_In. split; [exact Hin|].
        unfold in_week. now apply Z.eqb_eq.
      * unfold flag_filter. rewrite Hm. apply orb_true_r.
    + intros r Hr. inversion Hr; congruence.
Qed.

(** A missed session logged with painFlag 5. *)
Lemma redFlags_criterion_and_priority_witness :
  let l := {| l_id := "k3x9qz"; l_weekIndex := 1; l_date := "2024-05-06";
              completed := Some []; rpeAvg := Some 0; painFlag := 5;
              l_notes := ""; missed := true |} in
  let st := {| profile := defaultProfile; currentPhase := Base;
               weekIndex := 1; sessions := []; sessionLogs := [l];
               readinessToday := readinessToday defaultState |} in
  In {| f_id := "k3x9qz"; f_date := "2024-05-06";
        reason := "Missed session" |}
     (redFlags (fun _ => "9.5") st).
Proof.
  intros l st.
  apply (proj2 (redFlags_criterion_and_priority (fun _ => "9.5") st) l);
    [left; reflexivity | reflexivity | reflexivity | reflexivity].
Defined.

(* ------------------------------------------------------------------ *)
(** *** Triage: adherence *)

Lemma logged_count_filter (w : Z) (logs : list SessionLog) :
  List.length (filter (in_week w) logs) = logged_count w logs.
Proof.
  induction logs as [|l ls IH]; [reflexivity|].
  cbn [filter logged_count]. unfold in_week at 1.
  destruct (l_weekIndex l =? w)%Z; cbn [List.length]; now rewrite IH.
Qed.

Lemma adherence_agrees_small : adherence_agrees_upto 39 400 = true.
Proof. vm_compute. reflexivity. Qed.

Lemma adherence_agrees_at (planned logged : nat) :
  (1 <= planned <= 39)%nat -> (logged <= 400)%nat ->
  adherence_agrees planned logged = true.
Proof.
  intros Hp Hl.
  generalize adherence_agrees_small. unfold adherence_agrees_upto.
  rewrite forallb_forall. intros H.
  specialize (H planned). rewrite forallb_forall in H.
  apply H; apply in_seq; lia.
Qed.

Lemma adherence_unfold (st : State) :
  adherence st
  = if (List.length (sessions st) =? 0)%nat then 0
    else JS.Math_round
           ((JS.float_of_nat (logged_count (weekIndex st) (sessionLogs st))
             / JS.float_of_nat (List.length (sessions st))) * 100).
Proof. unfold adherence. now rewrite logged_count_filter. Qed.

(** C7, as stated, fails: with 40 planned sessions and 23 logs of the
    current week the source yields 57, because 23/40 is rounded to a
    binary64 value just below 0.575 and its product with 100 is
    57.49999999999999; round(100 * 23 / 40) is round(57.5) = 58. *)
Lemma adherence_differs_from_spec_formula :
  let l := {| l_id := "k3x9qz"; l_weekIndex := 1; l_date := "2024-05-06";
              completed := Some []; rpeAvg := Some 0; painFlag := 0;
              l_notes := ""; missed := false |} in
  let sess := {| s_id := "a1b2c3"; day := Mon; title := ""; warmup := [];
                 blocks := []; finisher := ""; cues := [] |} in
  let st := {| profile := defaultProfile; currentPhase := Base;
               weekIndex := 1; sessions := repeat sess 40;
               sessionLogs := repeat l 23;
               readinessToday := readinessToday defaultState |} in
  List.length (sessions st) = 40%nat
  /\ logged_count (weekIndex st) (sessionLogs st) = 23%nat
  /\ (JS.float_of_nat 23 / JS.float_of_nat 40) * 100 = 57.499999999999993
  /\ adherence st = 57
  /\ adherence_as_specified 40 23 = 58
  /\ exact_percentage 40 23 = 58%Z
  /\ adherence st
     <> adherence_as_specified (List.length (sessions st))
          (logged_count (weekIndex st) (sessionLogs st)).
Proof.
  cbv zeta. repeat split; try (vm_compute; reflexivity).
  match goal with
  | |- ?a <> ?b =>
      assert (G : (a =? 57) = true /\ (b =? 57) = false)
        by (split; vm_compute; reflexivity);
      intros H; rewrite H in G; destruct G; congruence
  end.
Qed.

(** C7, amended. Adherence is 0 when nothing is planned, and otherwise
    Math.round((loggedCount / plannedCount) * 100) with the quotient taken
    first, in binary64 arithmetic, loggedCount being the number of logs
    whose week index is the current one; 1 logged of 2 planned gives 50.
    For 1 to 39 planned sessions and up to 400 logs this is
    round(100 * loggedCount / plannedCount), both as a binary64 expression
    and exactly. *)
Theorem adherence_formula (st : State) :
  let planned := List.length (sessions st) in
  let logged := logged_count (weekIndex st) (sessionLogs st) in
  adherence st
  = (if (planned =? 0)%nat then 0
     else JS.Math_round
            ((JS.float_of_nat logged / JS.float_of_nat planned) * 100))
  /\ (planned = 0%nat -> adherence st = 0)
  /\ (planned = 2%nat -> logged = 1%nat -> adherence st = 50)
  /\ ((1 <= planned <= 39)%nat -> (logged <= 400)%nat ->
      adherence st = adherence_as_specified planned logged
      /\ adherence st = JS.float_of_Z (exact_percentage planned logged)).
Proof.
  cbv zeta.
  rewrite adherence_unfold.
  generalize (logged_count (weekIndex st) (sessionLogs st)) as logged.
  generalize (List.length (sessions st)) as planned.
  intros planned logged.
  split; [reflexivity|].
  split; [intros ->; reflexivity|].
  split; [intros -> ->; vm_compute; reflexivity|].
  intros Hp Hl.
  destruct (Nat.eqb_spec planned 0) as [Hz|_]; [lia|].
  pose proof (adherence_agrees_at planned logged Hp Hl) as H.
  unfold adherence_agrees in H. apply andb_true_iff in H.
  destruct H as [H1 H2].
  split; now apply FloatAxioms.Leibniz.eqb_spec.
Qed.

(** Two planned sessions and one log of the current week. *)
Lemma adherence_formula_witness :
  let l := {| l_id := "k3x9qz"; l_weekIndex := 1; l_date := "2024-05-06";
              completed := Some []; rpeAvg := Some 0; painFlag := 0;
              l_notes := ""; missed := false |} in
  let old := {| l_id := "p0o9i8"; l_weekIndex := 0; l_date := "2024-04-29";
                completed := Some []; rpeAvg := Some 0; painFlag := 0;
                l_notes := ""; missed := false |} in
  let sess := {| s_id := "a1b2c3"; day := Mon; title := ""; warmup := [];
                 blocks := []; finisher := ""; cues := [] |} in
  let st := {| profile := defaultProfile; currentPhase := Base;
               weekIndex := 1; sessions := [sess; sess];
               sessionLogs := [old; l];
               readinessToday := readinessToday defaultState |} in
  adherence st = 50
  /\ adherence defaultState = 0
  /\ adherence st = adherence_as_specified 2 1.
Proof.
  intros l old sess st.
  split; [|split].
  - apply (proj1 (proj2 (proj2 (adherence_formula st)))); reflexivity.
  - apply (proj1 (proj2 (adherence_formula defaultState))); reflexivity.
  - apply (proj2 (proj2 (proj2 (adherence_formula st)))); cbn; lia.
Defined.

(* ------------------------------------------------------------------ *)
(** *** Load estimator *)

(** **** Strings *)

Lemma prefix_iff (sub s : string) :
  String.prefix sub s = true <-> exists b, s = sub ++ b.
Proof.
  revert s. induction sub as [|c sub IH]; intros s.
  - destruct s; cbn; (split; [intros _; eexists; reflexivity | reflexivity]).
  - destruct s as [|d s]; cbn.
    + split; [discriminate | intros [b Hb]; discriminate Hb].
    + destruct (ascii_dec c d) as [->|Hne].
      * rewrite IH. split; intros [b Hb]; exists b; congruence.
      * split; [discriminate | intros [b Hb]; congruence].
Qed.

Lemma includes_iff (s sub : string) :
  JS.includes s sub = true <-> exists a b, s = a ++ sub ++ b.
Proof.
  induction s as [|c s IH].
  - cbn [JS.includes]. rewrite orb_false_r, prefix_iff. split.
    + intros [b Hb]. now exists "", b.
    + intros (a & b & H). destruct a; [now exists b | discriminate H].
  - cbn [JS.includes]. rewrite orb_true_iff, prefix_iff, IH. split.
    + intros [[b Hb] | (a & b & H)].
      * now exists "", b.
      * exists (String c a), b. cbn. now rewrite H.
    + intros (a & b & H). destruct a as [|d a].
      * left. now exists b.
      * right. exists a, b. cbn in H. congruence.
Qed.

Lemma split_space_0_no_space (s a b : string) :
  JS.split_space_0 s <> a ++ " " ++ b.
Proof.
  revert a. induction s as [|c s IH]; intros a; cbn.
  - destruct a; discriminate.
  - destruct (Ascii.eqb_spec c " "%char) as [->|Hc].
    + destruct a; discriminate.
    + destruct a as [|d a]; cbn.
      * intros H. injection H as H _. contradiction.
      * intros H. injection H as _ H. now apply IH in H.
Qed.

Lemma split_space_0_decompose (s : string) :
  s = JS.split_space_0 s
  \/ exists rest, s = JS.split_space_0 s ++ " " ++ rest.
Proof.
  induction s as [|c s IH]; cbn; [now left|].
  destruct (Ascii.eqb_spec c " "%char) as [->|Hc].
  - right. now exists s.
  - destruct IH as [IH | [rest IH]].
    + left. f_equal. exact IH.
    + right. exists rest. cbn. f_equal. exact IH.
Qed.

Lemma first_token_unique (target tok : string) :
  first_token target tok <-> tok = JS.split_space_0 target.
Proof.
  split.
  - revert target. induction tok as [|c tok IH]; intros target [Hns Hd].
    + destruct Hd as [-> | [rest ->]]; reflexivity.
    + assert (Hc : c <> " "%char).
      { intros ->. now apply (Hns "" tok). }
      assert (Hns' : forall a b, tok <> a ++ " " ++ b).
      { intros a b ->. now apply (Hns (String c a) b). }
      destruct Hd as [-> | [rest ->]]; cbn;
        (destruct (Ascii.eqb_spec c " "%char) as [E|_]; [contradiction|]);
        f_equal; apply IH; split; auto.
      right. now exists rest.
  - intros ->. split.
    + intros a b. apply split_space_0_no_space.
    + apply split_space_0_decompose.
Qed.

(** **** The two scans *)

Lemma has_completed_sets_iff (l : SessionLog) :
  has_completed_sets l = true <-> has_sets l.
Proof.
  unfold has_completed_sets, has_sets.
  destruct (completed l) as [[|c cs]|]; cbn; split;
    try discriminate; try (intros (c' & cs' & H); discriminate H).
  - intros _. now exists c, cs.
  - reflexivity.
Qed.

Lemma move_matches_iff (target : string) (x : CompletedSet) :
  move_matches target x = true <-> fuzzy_match target x.
Proof.
  unfold move_matches, fuzzy_match. split.
  - destruct (c_move x) as [m|]; [|discriminate].
    rewrite includes_iff. intros (a & b & H).
    exists m, (JS.split_space_0 target), a, b.
    split; [reflexivity|].
    split; [now apply first_token_unique | exact H].
  - intros (m & tok & a & b & -> & Ht & H).
    apply first_token_unique in Ht. subst tok.
    apply includes_iff. now exists a, b.
Qed.

Lemma not_true_false (b : bool) (P : Prop) :
  (b = true <-> P) -> (b = false <-> ~ P).
Proof. intros H. destruct b; split; intros; intuition congruence. Qed.

Lemma find_skip {A : Type} (p : A -> bool) (pre : list A) (x : A)
      (post : list A) :
  (forall y, In y pre -> p y = false) -> p x = true ->
  List.find p (pre ++ x :: post)%list = Some x.
Proof.
  intros Hpre Hx. induction pre as [|y pre IH]; cbn.
  - now rewrite Hx.
  - rewrite (Hpre y) by now left. apply IH. intros z Hz. apply Hpre. now right.
Qed.

Lemma find_split {A : Type} (p : A -> bool) (l : list A) (x : A) :
  List.find p l = Some x ->
  exists pre post,
    l = (pre ++ x :: post)%list /\ p x = true /\ forall y, In y pre -> p y = false.
Proof.
  induction l as [|y l IH]; cbn; [discriminate|].
  destruct (p y) eqn:Ey.
  - intros [= ->]. exists [], l. repeat split; auto. intros ? [].
  - intros H. destruct (IH H) as (pre & post & -> & Hx & Hpre).
    exists (y :: pre), post. repeat split; auto.
    intros z [<-|Hz]; auto.
Qed.

(** The scan for the entry: newest first. *)
Lemma scan_entry_found (logs : list SessionLog) (l : SessionLog) :
  most_recent_with_sets logs l ->
  JS.find has_completed_sets (rev logs) = Some l.
Proof.
  intros (older & newer & -> & Hl & Hnew).
  rewrite rev_app_distr. cbn [rev]. rewrite <- app_assoc. cbn [app].
  apply find_skip.
  - intros y Hy. apply in_rev in Hy.
    apply (not_true_false _ _ (has_completed_sets_iff y)). now apply Hnew.
  - now apply has_completed_sets_iff.
Qed.

Lemma scan_entry_none (logs : list SessionLog) :
  (forall l, In l logs -> ~ has_sets l) ->
  JS.find has_completed_sets (rev logs) = None.
Proof.
  intros H. unfold JS.find.
  destruct (List.find has_completed_sets (rev logs)) as [l|] eqn:E;
    [|reflexivity].
  apply find_some in E. destruct E as [Hin Hl].
  apply in_rev in Hin. apply has_completed_sets_iff in Hl.
  now apply H in Hin.
Qed.

Lemma scan_entry_cases (logs : list SessionLog) :
  (JS.find has_completed_sets (rev logs) = None
   /\ forall l, In l logs -> ~ has_sets l)
  \/ exists l, JS.find has_completed_sets (rev logs) = Some l
               /\ most_recent_with_sets logs l.
Proof.
  unfold JS.find.
  destruct (List.find has_completed_sets (rev logs)) as [l|] eqn:E.
  - right. exists l. split; [reflexivity|].
    destruct (find_split _ _ _ E) as (pre & post & Hrev & Hl & Hpre).
    exists (rev post), (rev pre). repeat split.
    + rewrite <- (rev_involutive logs), Hrev, rev_app_distr. cbn [rev].
      now rewrite <- app_assoc.
    + now apply has_completed_sets_iff.
    + intros x Hx. apply in_rev in Hx.
      apply (not_true_false _ _ (has_completed_sets_iff x)). now apply Hpre.
  - left. split; [reflexivity|].
    intros l Hin Hl. apply has_completed_sets_iff in Hl.
    pose proof (find_none _ _ E l (proj1 (in_rev _ _) Hin)) as F.
    congruence.
Qed.

Lemma suggest_in_entry (target : string) (logs : list SessionLog)
      (l : SessionLog) :
  most_recent_with_sets logs l ->
  suggestStartingLoad target logs = suggestion_in target l.
Proof.
  intros H. unfold suggestStartingLoad, suggestion_in.
  now rewrite (scan_entry_found _ _ H).
Qed.

Lemma suggestion_in_match (target : string) (l : SessionLog)
      (c : CompletedSet) :
  first_match target l c ->
  suggestion_in target l = Some (JS.Math_round (load_or_zero c * 1.02)).
Proof.
  intros (before & after & Hc & Hm & Hb).
  unfold suggestion_in, JS.find. rewrite Hc.
  rewrite (find_skip (move_matches target) before c after); [reflexivity| |].
  - intros y Hy.
    apply (not_true_false _ _ (move_matches_iff target y)). now apply Hb.
  - now apply move_matches_iff.
Qed.

Lemma suggestion_in_cases (target : string) (l : SessionLog) :
  (suggestion_in target l = None /\ no_match target l)
  \/ exists c, first_match target l c
               /\ suggestion_in target l
                  = Some (JS.Math_round (load_or_zero c * 1.02)).
Proof.
  unfold suggestion_in, JS.find.
  destruct (completed l) as [cs|] eqn:Ec.
  - destruct (List.find (move_matches target) cs) as [c|] eqn:E.
    + right. exists c. split; [|reflexivity].
      destruct (find_split _ _ _ E) as (pre & post & -> & Hc & Hpre).
      exists pre, post. split; [exact Ec|]. split.
      * now apply move_matches_iff.
      * intros x Hx.
        apply (not_true_false _ _ (move_matches_iff target x)).
        now apply Hpre.
    + left. split; [reflexivity|].
      intros cs' x Hcs Hin Hx. rewrite Ec in Hcs. injection Hcs as <-.
      apply move_matches_iff in Hx.
      pose proof (find_none _ _ E x Hin) as F. congruence.
  - left. split; [reflexivity|]. intros cs x H. congruence.
Qed.

Lemma suggestion_in_no_match (target : string) (l : SessionLog) :
  no_match target l -> suggestion_in target l = None.
Proof.
  intros Hn.
  destruct (suggestion_in_cases target l) as [[H _] | (c & Hc & _)];
    [exact H|].
  destruct Hc as (before & after & Hc & Hm & _).
  exfalso. apply (Hn _ c Hc); [|exact Hm].
  apply in_or_app. right. now left.
Qed.

Lemma load_or_zero_truthy (c : CompletedSet) (v : float) :
  lastLoad c = Some v -> JS.truthy v = true -> load_or_zero c = v.
Proof. intros E T. unfold load_or_zero. now rewrite E, T. Qed.

Lemma load_or_zero_falsy (c : CompletedSet) :
  load_falsy c -> load_or_zero c = 0.
Proof.
  unfold load_or_zero. intros [E | (v & E & T)]; rewrite E; [|rewrite T];
    reflexivity.
Qed.

Lemma suggestion_not_below_small : suggestion_not_below_upto 5000 = true.
Proof. vm_compute. reflexivity. Qed.

Lemma suggestion_not_below_at (n : nat) :
  (n <= 5000)%nat -> suggestion_not_below n = true.
Proof.
  intros Hn. generalize suggestion_not_below_small.
  unfold suggestion_not_below_upto. rewrite forallb_forall.
  intros H. apply H, in_seq. lia.
Qed.

Lemma load_or_zero_whole (c : CompletedSet) (n : nat) :
  lastLoad c = Some (JS.float_of_nat n) ->
  load_or_zero c
  = if JS.truthy (JS.float_of_nat n) then JS.float_of_nat n else 0.
Proof. intros E. unfold load_or_zero. now rewrite E. Qed.

(** **** The estimator over the host's case folding *)

Lemma host_move_matches_iff (lower : string -> string) (target : string)
      (x : CompletedSet) :
  Estimator.move_matches lower target x = true
  <-> EstimatorSpec.fuzzy_match lower target x.
Proof.
  unfold Estimator.move_matches, EstimatorSpec.fuzzy_match. split.
  - destruct (c_move x) as [m|]; [|discriminate].
    rewrite includes_iff. intros (a & b & H).
    exists m, (JS.split_space_0 target), a, b.
    split; [reflexivity|].
    split; [now apply first_token_unique | exact H].
  - intros (m & tok & a & b & -> & Ht & H).
    apply first_token_unique in Ht. subst tok.
    apply includes_iff. now exists a, b.
Qed.

Lemma host_suggest_in_entry (lower : string -> string) (target : string)
      (logs : list SessionLog) (l : SessionLog) :
  most_recent_with_sets logs l ->
  Estimator.suggestStartingLoad lower target logs
  = EstimatorSpec.suggestion_in lower target l.
Proof.
  intros H. unfold Estimator.suggestStartingLoad, EstimatorSpec.suggestion_in.
  now rewrite (scan_entry_found _ _ H).
Qed.

Lemma host_suggestion_in_match (lower : string -> string) (target : string)
      (l : SessionLog) (c : CompletedSet) :
  EstimatorSpec.first_match lower target l c ->
  EstimatorSpec.suggestion_in lower target l
  = Some (JS.Math_round (load_or_zero c * 1.02)).
Proof.
  intros (before & after & Hc & Hm & Hb).
  unfold EstimatorSpec.suggestion_in, JS.find. rewrite Hc.
  rewrite (find_skip (Estimator.move_matches lower target) before c after);
    [reflexivity| |].
  - intros y Hy.
    apply (not_true_false _ _ (host_move_matches_iff lower target y)).
    now apply Hb.
  - now apply host_move_matches_iff.
Qed.

Lemma host_suggestion_in_cases (lower : string -> string) (target : string)
      (l : SessionLog) :
  (EstimatorSpec.suggestion_in lower target l = None
   /\ EstimatorSpec.no_match lower target l)
  \/ exists c, EstimatorSpec.first_match lower target l c
               /\ EstimatorSpec.suggestion_in lower target l
                  = Some (JS.Math_round (load_or_zero c * 1.02)).
Proof.
  unfold EstimatorSpec.suggestion_in, JS.find.
  destruct (completed l) as [cs|] eqn:Ec.
  - destruct (List.find (Estimator.move_matches lower target) cs) as [c|]
      eqn:E.
    + right. exists c. split; [|reflexivity].
      destruct (find_split _ _ _ E) as (pre & post & -> & Hc & Hpre).
      exists pre, post. split; [exact Ec|]. split.
      * now apply host_move_matches_iff.
      * intros x Hx.
        apply (not_true_false _ _ (host_move_matches_iff lower target x)).
        now apply Hpre.
    + left. split; [reflexivity|].
      intros cs' x Hcs Hin Hx. rewrite Ec in Hcs. injection Hcs as <-.
      apply host_move_matches_iff in Hx.
      pose proof (find_none _ _ E x Hin) as F. congruence.
  - left. split; [reflexivity|]. intros cs x H. congruence.
Qed.

Lemma host_suggestion_in_no_match (lower : string -> string)
      (target : string) (l : SessionLog) :
  EstimatorSpec.no_match lower target l ->
  EstimatorSpec.suggestion_in lower target l = None.
Proof.
  intros Hn.
  destruct (host_suggestion_in_cases lower target l)
    as [[H _] | (c & Hc & _)]; [exact H|].
  destruct Hc as (before & after & Hc & Hm & _).
  exfalso. apply (Hn _ c Hc); [|exact Hm].
  apply in_or_app. right. now left.
Qed.

Lemma suggestStartingLoad_ascii_instance :
  suggestStartingLoad = Estimator.suggestStartingLoad JS.toLowerCase.
Proof. reflexivity. Qed.

Lemma host_no_sets_none (lower : string -> string) (target : string)
      (logs : list SessionLog) :
  (forall l, In l logs -> ~ has_sets l) ->
  Estimator.suggestStartingLoad lower target logs = None.
Proof.
  intros H. unfold Estimator.suggestStartingLoad.
  now rewrite (scan_entry_none _ H).
Qed.

(** **** The claims *)

(** C5, as stated, fails on its bound: a matched load of 12.25 gives the
    suggestion round(12.495) = 12, which is below the load; so the
    result is not always at least the matched non-negative load.  The
    names are ASCII, on which the host's folding is [JS.toLowerCase]. *)
Lemma suggestion_below_fractional_load :
  let c := {| c_move := Some "Back Squat"; c_sets := 3; c_reps := 5;
              c_rpe := 8; lastLoad := Some 12.25 |} in
  let l := {| l_id := "k3x9qz"; l_weekIndex := 1; l_date := "2024-05-06";
              completed := Some [c]; rpeAvg := Some 8; painFlag := 0;
              l_notes := ""; missed := false |} in
  Estimator.suggestStartingLoad JS.toLowerCase "Back Squat" [l] = Some 12
  /\ (0 <=? 12.25) = true
  /\ (12.25 <=? 12) = false
  /\ ~ (forall target logs l c v w,
           most_recent_with_sets logs l ->
           EstimatorSpec.first_match JS.toLowerCase target l c ->
           lastLoad c = Some v -> (0 <=? v) = true ->
           Estimator.suggestStartingLoad JS.toLowerCase target logs = Some w ->
           (v <=? w) = true).
Proof.
  intros c l.
  assert (E : Estimator.suggestStartingLoad JS.toLowerCase "Back Squat" [l]
              = Some 12)
    by (vm_compute; reflexivity).
  split; [exact E|]. split; [reflexivity|]. split; [reflexivity|].
  intros H.
  specialize (H "Back Squat" [l] l c 12.25 12).
  assert (F : (12.25 <=? 12) = true).
  { apply H.
    - exists [], []. split; [reflexivity|]. split.
      + now exists c, [].
      + intros x [].
    - exists [], []. split; [reflexivity|]. split.
      + apply host_move_matches_iff. reflexivity.
      + intros x [].
    - reflexivity.
    - reflexivity.
    - exact E. }
  discriminate F.
Qed.

(** C5, amended. The log list is read from its most recent entry
    backwards up to the first entry that has a completed set; only that
    entry is searched, for its first completed set whose movement name,
    lower-cased by toLowerCase, contains the lower-cased first
    space-delimited token of the target name.  With such a match whose
    load is a usable (truthy) number the result is Math.round(load * 1.02).
    The result is null when the list is empty, when no entry has
    completed sets, and when the scanned entry has no match.  For a
    whole-number load from 0 to 5000 the result is at least the load; a
    fractional load can be rounded below itself.  All of it holds
    whatever the host's toLowerCase maps. *)
Theorem suggestStartingLoad_scan (toLowerCase : string -> string)
        (target : string) (logs : list SessionLog) :
  (logs = [] -> Estimator.suggestStartingLoad toLowerCase target logs = None)
  /\ ((forall l, In l logs -> ~ has_sets l) ->
      Estimator.suggestStartingLoad toLowerCase target logs = None)
  /\ (forall l,
         most_recent_with_sets logs l ->
         EstimatorSpec.no_match toLowerCase target l ->
         Estimator.suggestStartingLoad toLowerCase target logs = None)
  /\ (forall l c v,
         most_recent_with_sets logs l ->
         EstimatorSpec.first_match toLowerCase target l c ->
         lastLoad c = Some v -> JS.truthy v = true ->
         Estimator.suggestStartingLoad toLowerCase target logs
         = Some (JS.Math_round (v * 1.02)))
  /\ (forall l c n,
         most_recent_with_sets logs l ->
         EstimatorSpec.first_match toLowerCase target l c ->
         lastLoad c = Some (JS.float_of_nat n) -> (n <= 5000)%nat ->
         exists w,
           Estimator.suggestStartingLoad toLowerCase target logs = Some w
           /\ (JS.float_of_nat n <=? w) = true).
Proof.
  split; [intros ->; reflexivity|].
  split; [apply host_no_sets_none|].
  split.
  { intros l Hl Hn.
    rewrite (host_suggest_in_entry _ _ _ _ Hl).
    now apply host_suggestion_in_no_match. }
  split.
  { intros l c v Hl Hc Ev Tv.
    rewrite (host_suggest_in_entry _ _ _ _ Hl),
      (host_suggestion_in_match _ _ _ _ Hc).
    now rewrite (load_or_zero_truthy _ _ Ev Tv). }
  intros l c n Hl Hc En Hn.
  rewrite (host_suggest_in_entry _ _ _ _ Hl),
    (host_suggestion_in_match _ _ _ _ Hc).
  rewrite (load_or_zero_whole _ _ En).
  eexists. split; [reflexivity|].
  exact (suggestion_not_below_at n Hn).
Qed.

(** Three entries, the newest without completed sets; the names are
    ASCII, on which the host's folding is [JS.toLowerCase]. *)
Lemma suggestStartingLoad_scan_witness :
  let squat := {| c_move := Some "Barbell BACK Squat"; c_sets := 3;
                  c_reps := 5; c_rpe := 8; lastLoad := Some 225 |} in
  let row := {| c_move := Some "Chest-Supported Row"; c_sets := 3;
                c_reps := 8; c_rpe := 8; lastLoad := Some 135 |} in
  let older := {| l_id := "p0o9i8"; l_weekIndex := 1;
                  l_date := "2024-05-06"; completed := Some [squat];
                  rpeAvg := Some 8; painFlag := 0; l_notes := "";
                  missed := false |} in
  let recent := {| l_id := "k3x9qz"; l_weekIndex := 1;
                   l_date := "2024-05-08"; completed := Some [row; squat];
                   rpeAvg := Some 8; painFlag := 0; l_notes := "";
                   missed := false |} in
  let skipped := {| l_id := "m4n5b6"; l_weekIndex := 1;
                    l_date := "2024-05-10"; completed := Some [];
                    rpeAvg := Some 0; painFlag := 0; l_notes := "";
                    missed := true |} in
  let suggest := Estimator.suggestStartingLoad JS.toLowerCase in
  suggest "Back Squat" [older; recent; skipped]
  = Some (JS.Math_round (225 * 1.02))
  /\ suggest "Back Squat" [] = None
  /\ suggest "Back Squat" [skipped] = None
  /\ suggest "RDL" [older; recent; skipped] = None
  /\ exists w,
       suggest "Back Squat" [older; recent; skipped] = Some w
       /\ (JS.float_of_nat 225 <=? w) = true.
Proof.
  intros squat row older recent skipped suggest. subst suggest.
  assert (Hrecent : most_recent_with_sets [older; recent; skipped] recent).
  { exists [older], [skipped]. split; [reflexivity|]. split.
    - now exists row, [squat].
    - intros x [<-|[]] (c & cs & H). discriminate H. }
  assert (Hsquat : EstimatorSpec.first_match JS.toLowerCase "Back Squat"
                     recent squat).
  { exists [row], []. split; [reflexivity|]. split.
    - apply host_move_matches_iff. reflexivity.
    - intros x [<-|[]] H. apply host_move_matches_iff in H. discriminate H. }
  split; [|split; [|split; [|split]]].
  - apply (proj1 (proj2 (proj2 (proj2
             (suggestStartingLoad_scan JS.toLowerCase "Back Squat" _))))
             recent squat);
      [exact Hrecent | exact Hsquat | reflexivity | reflexivity].
  - apply (proj1 (suggestStartingLoad_scan JS.toLowerCase "Back Squat" [])).
    reflexivity.
  - apply (proj1 (proj2 (suggestStartingLoad_scan JS.toLowerCase
                           "Back Squat" [skipped]))).
    intros x [<-|[]] (c & cs & H). discriminate H.
  - apply (proj1 (proj2 (proj2 (suggestStartingLoad_scan JS.toLowerCase
                                  "RDL" _))) recent);
      [exact Hrecent|].
    intros cs x [= <-] Hin H. apply host_move_matches_iff in H.
    destruct Hin as [<-|[<-|[]]]; discriminate H.
  - apply (proj2 (proj2 (proj2 (proj2
             (suggestStartingLoad_scan JS.toLowerCase "Back Squat" _))))
             recent squat 225%nat);
      [exact Hrecent | exact Hsquat | reflexivity | lia].
Defined.

(** C10. Once the most recent entry with completed sets holds a matching
    set, the result is never null: it is Math.round(base * 1.02) with
    base the recorded load, or 0 when that load is missing, zero or
    otherwise falsy, in which case the result is 0.  The result is null
    exactly when no entry has completed sets or the scanned entry has no
    matching set.  Matching is by the host's toLowerCase, whatever it
    maps. *)
Theorem suggestStartingLoad_null_only_without_match
        (toLowerCase : string -> string) (target : string)
        (logs : list SessionLog) :
  (forall l c,
      most_recent_with_sets logs l ->
      EstimatorSpec.first_match toLowerCase target l c ->
      Estimator.suggestStartingLoad toLowerCase target logs
      = Some (JS.Math_round (load_or_zero c * 1.02))
      /\ Estimator.suggestStartingLoad toLowerCase target logs <> None
      /\ (load_falsy c ->
          Estimator.suggestStartingLoad toLowerCase target logs = Some 0))
  /\ (Estimator.suggestStartingLoad toLowerCase target logs = None <->
      (forall l, In l logs -> ~ has_sets l)
      \/ exists l, most_recent_with_sets logs l
                   /\ EstimatorSpec.no_match toLowerCase target l).
Proof.
  split.
  - intros l c Hl Hc.
    rewrite (host_suggest_in_entry _ _ _ _ Hl),
      (host_suggestion_in_match _ _ _ _ Hc).
    split; [reflexivity|]. split; [discriminate|].
    intros Hf. rewrite (load_or_zero_falsy _ Hf). reflexivity.
  - split.
    + intros Hnone.
      destruct (scan_entry_cases logs) as [[_ H] | (l & _ & Hl)];
        [now left|].
      right. exists l. split; [exact Hl|].
      rewrite (host_suggest_in_entry _ _ _ _ Hl) in Hnone.
      destruct (host_suggestion_in_cases toLowerCase target l)
        as [[_ H] | (c & _ & E)]; [exact H | congruence].
    + intros [H | (l & Hl & Hn)].
      * now apply host_no_sets_none.
      * rewrite (host_suggest_in_entry _ _ _ _ Hl).
        now apply host_suggestion_in_no_match.
Qed.

(** Matched sets whose load is zero or missing; the names are ASCII, on
    which the host's folding is [JS.toLowerCase]. *)
Lemma suggestStartingLoad_null_only_without_match_witness :
  let bench := {| c_move := Some "Barbell Bench Press"; c_sets := 0;
                  c_reps := 0; c_rpe := 7; lastLoad := Some 0 |} in
  let bare := {| c_move := Some "Bench (paused)"; c_sets := 3;
                 c_reps := 5; c_rpe := 8; lastLoad := None |} in
  let l1 := {| l_id := "k3x9qz"; l_weekIndex := 1; l_date := "2024-05-06";
               completed := Some [bench]; rpeAvg := Some 7; painFlag := 0;
               l_notes := ""; missed := false |} in
  let l2 := {| l_id := "p0o9i8"; l_weekIndex := 1; l_date := "2024-05-08";
               completed := Some [bare]; rpeAvg := Some 8; painFlag := 0;
               l_notes := ""; missed := false |} in
  let suggest := Estimator.suggestStartingLoad JS.toLowerCase in
  suggest "Barbell Bench Press" [l1] = Some 0
  /\ suggest "Bench" [l1; l2] = Some 0
  /\ suggest "Barbell Bench Press" [l1; l2] = None.
Proof.
  intros bench bare l1 l2 suggest. subst suggest.
  split; [|split].
  - apply (proj1 (suggestStartingLoad_null_only_without_match JS.toLowerCase
                    "Barbell Bench Press" [l1]) l1 bench).
    + exists [], []. split; [reflexivity|]. split.
      * now exists bench, [].
      * intros x [].
    + exists [], []. split; [reflexivity|]. split.
      * apply host_move_matches_iff. reflexivity.
      * intros x [].
    + right. exists 0. split; reflexivity.
  - apply (proj1 (suggestStartingLoad_null_only_without_match JS.toLowerCase
                    "Bench" [l1; l2]) l2 bare).
    + exists [l1], []. split; [reflexivity|]. split.
      * now exists bare, [].
      * intros x [].
    + exists [], []. split; [reflexivity|]. split.
      * apply host_move_matches_iff. reflexivity.
      * intros x [].
    + left. reflexivity.
  - apply (proj2 (suggestStartingLoad_null_only_without_match JS.toLowerCase
                    "Barbell Bench Press" [l1; l2])).
    right. exists l2. split.
    + exists [l1], []. split; [reflexivity|]. split.
      * now exists bare, [].
      * intros x [].
    + intros cs x [= <-] [<-|[]] H. apply host_move_matches_iff in H.
      discriminate H.
Defined.

(* ------------------------------------------------------------------ *)
(** ** Further properties of the handlers *)

(** *** Day chips *)

Lemma weekday_eqb_eq (a b : weekday) : weekday_eqb a b = true <-> a = b.
Proof. destruct a, b; cbn; split; intros H; congruence. Qed.

Lemma includes_weekday_In (d : weekday) (l : list weekday) :
  JS.arr_includes weekday_eqb l (Some d) = true <-> In d l.
Proof.
  cbn. rewrite existsb_exists. split.
  - intros (y & Hy & E). apply weekday_eqb_eq in E. now subst.
  - intros H. exists d. split; [exact H | now apply weekday_eqb_eq].
Qed.

Lemma In_filter_other (d x : weekday) (l : list weekday) :
  In x (filter (fun y => negb (weekday_eqb y d)) l) <-> In x l /\ x <> d.
Proof.
  rewrite filter_In, negb_true_iff. split; intros [H1 H2]; split; auto.
  - intros ->. destruct (weekday_eqb_eq d d) as [_ E].
    rewrite E in H2; [discriminate | reflexivity].
  - destruct (weekday_eqb x d) eqn:E; [|reflexivity].
    apply weekday_eqb_eq in E. contradiction.
Qed.

Lemma toggle_cases (d : weekday) (l : list weekday) :
  (In d l /\ toggle d l = filter (fun y => negb (weekday_eqb y d)) l)
  \/ (~ In d l /\ toggle d l = (l ++ [d])%list).
Proof.
  unfold toggle.
  destruct (JS.arr_includes weekday_eqb l (Some d)) eqn:E.
  - left. split; [now apply includes_weekday_In | reflexivity].
  - right. split; [|reflexivity].
    intros H. apply includes_weekday_In in H. congruence.
Qed.

Lemma filter_other_absent (d : weekday) (l : list weekday) :
  ~ In d l -> filter (fun y => negb (weekday_eqb y d)) l = l.
Proof.
  induction l as [|x l IH]; intros H; [reflexivity|].
  cbn [filter]. destruct (weekday_eqb x d) eqn:E.
  - apply weekday_eqb_eq in E. subst. exfalso. apply H. now left.
  - cbn [negb]. f_equal. apply IH. intros Hin. apply H. now right.
Qed.

(** X1. Toggling a day chip flips the membership of that day and of no
    other day, for the available days and for the BJJ days alike. *)
Theorem toggle_flips_only_that_day (d : weekday) (p : Profile) :
  (In d (daysAvailable (toggleDay d p)) <-> ~ In d (daysAvailable p))
  /\ (In d (bjjDays (toggleBJJ d p)) <-> ~ In d (bjjDays p))
  /\ (forall x, x <> d ->
        (In x (daysAvailable (toggleDay d p)) <-> In x (daysAvailable p))
        /\ (In x (bjjDays (toggleBJJ d p)) <-> In x (bjjDays p)))
  /\ bjjDays (toggleDay d p) = bjjDays p
  /\ daysAvailable (toggleBJJ d p) = daysAvailable p.
Proof.
  assert (F : forall l, In d (toggle d l) <-> ~ In d l).
  { intros l. destruct (toggle_cases d l) as [[Hin ->] | [Hout ->]].
    - rewrite In_filter_other. tauto.
    - rewrite in_app_iff. cbn. tauto. }
  assert (G : forall l x, x <> d -> (In x (toggle d l) <-> In x l)).
  { intros l x Hx. destruct (toggle_cases d l) as [[Hin ->] | [Hout ->]].
    - rewrite In_filter_other. tauto.
    - rewrite in_app_iff. cbn. intuition congruence. }
  cbn [toggleDay toggleBJJ daysAvailable bjjDays].
  repeat split; try apply F; try apply G; auto.
Qed.

Lemma toggle_flips_only_that_day_witness :
  In Wed (daysAvailable (toggleDay Tue defaultProfile))
  <-> In Wed (daysAvailable defaultProfile).
Proof.
  apply (proj1 (proj2 (proj2 (toggle_flips_only_that_day Tue defaultProfile)))
           Wed).
  discriminate.
Defined.

Lemma NoDup_weekdays_length (l : list weekday) :
  NoDup l -> (List.length l <= 7)%nat.
Proof.
  intros H.
  apply (NoDup_incl_length H (l' := weekdays)).
  intros x _. destruct x; cbn; tauto.
Qed.

Lemma toggle_NoDup (d : weekday) (l : list weekday) :
  NoDup l -> NoDup (toggle d l).
Proof.
  intros H. destruct (toggle_cases d l) as [[Hin ->] | [Hout ->]].
  - now apply NoDup_filter.
  - apply NoDup_app.
    + exact H.
    + repeat constructor. intros [].
    + intros x Hx [<-|[]]. contradiction.
Qed.

(** X2. A day list without duplicates stays without duplicates under
    the chip toggle, and therefore never holds more than seven days. *)
Theorem toggle_keeps_days_distinct (d : weekday) (l : list weekday) :
  NoDup l ->
  NoDup (toggle d l) /\ (List.length (toggle d l) <= 7)%nat.
Proof.
  intros H. split; [now apply toggle_NoDup|].
  now apply NoDup_weekdays_length, toggle_NoDup.
Qed.

Lemma toggle_keeps_days_distinct_witness :
  NoDup (toggle Sat [Mon; Thu])
  /\ (List.length (toggle Sat [Mon; Thu]) <= 7)%nat.
Proof.
  apply toggle_keeps_days_distinct.
  repeat constructor; cbn; intuition discriminate.
Defined.

(** X3. Toggling twice: a day that was off leaves the list exactly as it
    was; a day that was on ends up once, at the end of the list, so its
    session is generated last. *)
Theorem toggle_twice (d : weekday) (l : list weekday) :
  (~ In d l -> toggle d (toggle d l) = l)
  /\ (In d l ->
      toggle d (toggle d l)
      = (filter (fun y => negb (weekday_eqb y d)) l ++ [d])%list).
Proof.
  split; intros H.
  - destruct (toggle_cases d l) as [[Hin _] | [_ ->]]; [contradiction|].
    destruct (toggle_cases d (l ++ [d])) as [[_ ->] | [Hout _]].
    + rewrite filter_app, (filter_other_absent d l H). cbn.
      destruct (weekday_eqb_eq d d) as [_ E]. rewrite E by reflexivity.
      cbn. apply app_nil_r.
    + exfalso. apply Hout, in_or_app. right. now left.
  - destruct (toggle_cases d l) as [[_ ->] | [Hout _]]; [|contradiction].
    destruct (toggle_cases d (filter (fun y => negb (weekday_eqb y d)) l))
      as [[Hin _] | [_ ->]]; [|reflexivity].
    apply In_filter_other in Hin. now destruct Hin.
Qed.

Lemma toggle_twice_witness :
  toggle Sat (toggle Sat [Mon; Thu]) = [Mon; Thu]
  /\ toggle Mon (toggle Mon [Mon; Thu]) = [Thu; Mon].
Proof.
  split.
  - apply (proj1 (toggle_twice Sat [Mon; Thu])).
    cbn. intuition discriminate.
  - apply (proj2 (toggle_twice Mon [Mon; Thu])). now left.
Defined.

(** *** Plan generator *)

Lemma plan_days_day (ids : nat -> string) (k : nat) (p : Profile)
      (c : Constraints) (lw : list SessionLog) (days : list weekday) :
  map day (plan_days ids k p c lw days) = days.
Proof.
  revert k. induction days as [|d ds IH]; intros k; cbn; [reflexivity|].
  now rewrite IH.
Qed.

Lemma plan_days_id (ids : nat -> string) (k : nat) (p : Profile)
      (c : Constraints) (lw : list SessionLog) (days : list weekday) :
  map s_id (plan_days ids k p c lw days)
  = map ids (seq k (List.length days)).
Proof.
  revert k. induction days as [|d ds IH]; intros k; cbn; [reflexivity|].
  now rewrite IH.
Qed.

Lemma plan_days_In (ids : nat -> string) (k : nat) (p : Profile)
      (c : Constraints) (lw : list SessionLog) (days : list weekday)
      (sess : Session) :
  In sess (plan_days ids k p c lw days) ->
  exists j d, In d days /\ sess = plan_session p c lw (ids j) d.
Proof.
  revert k. induction days as [|d ds IH]; intros k; cbn; [intros []|].
  intros [<-|H].
  - exists k, d. split; [now left | reflexivity].
  - destruct (IH _ H) as (j & d' & Hd & E).
    exists j, d'. split; [now right | exact E].
Qed.

(** X4. The generated plan has exactly one session per available day,
    in the order the profile stores the days, and the sessions take the
    identifier draws in that same order. *)
Theorem plan_follows_daysAvailable (shortId : nat -> string) (p : Profile)
        (r : Readiness) (lastWeek : list SessionLog) (ph : phase) (wk : Z) :
  let sessions := plan (aiGenerateSessions shortId p r lastWeek ph wk) in
  map day sessions = daysAvailable p
  /\ map s_id sessions
     = map shortId (seq 0 (List.length (daysAvailable p)))
  /\ List.length sessions = List.length (daysAvailable p).
Proof.
  cbn. split; [apply plan_days_day|]. split; [apply plan_days_id|].
  rewrite <- (length_map day), plan_days_day. reflexivity.
Qed.

Lemma plan_block_suggestion (lw : list SessionLog) (tb : TemplateBlock) :
  loadSuggestion (plan_block lw tb)
  = if JS.geb (t_targetRPE tb) 8
    then suggestStartingLoad (t_move tb) lw else None.
Proof. reflexivity. Qed.





Lemma has_shoulder_iff (p : Profile) :
  c_shoulder (inferConstraints p) = true
  <-> exists i, In i (injuries p) /\ inj_area i = shoulder.
Proof.
  cbn. unfold JS.some. rewrite existsb_exists.
  split; intros (i & Hi & H); exists i; split; auto.
  - destruct (inj_area i); cbn in H; congruence.
  - now rewrite H.
Qed.

(** X6. A profile with a shoulder injury never gets a Barbell Bench
    Press block, and its Back Squat blocks name the Safety Bar Squat as
    alternative; a profile without one never gets a DB Neutral Press
    block or any alternative.  Either way a session has three or four
    blocks, each with a slot count of at least one. *)
Theorem plan_respects_shoulder (shortId : nat -> string) (p : Profile)
        (r : Readiness) (lastWeek : list SessionLog) (ph : phase) (wk : Z)
        (sess : Session) :
  In sess (plan (aiGenerateSessions shortId p r lastWeek ph wk)) ->
  (3 <= List.length (blocks sess) <= 4)%nat
  /\ forall b, In b (blocks sess) ->
       (1 <= slots b)%Z
       /\ ((exists i, In i (injuries p) /\ inj_area i = shoulder) ->
           move b <> "Barbell Bench Press"
           /\ (move b = "Back Squat" -> alt b = Some "Safety Bar Squat"))
       /\ ((forall i, In i (injuries p) -> inj_area i <> shoulder) ->
           move b <> "DB Neutral Press" /\ alt b = None).
Proof.
  cbn [aiGenerateSessions plan]. intros Hs.
  apply plan_days_In in Hs. destruct Hs as (j & d & _ & ->).
  cbn [plan_session blocks].
  pose proof (has_shoulder_iff p) as Hsh.
  destruct (inferConstraints p) as [sh]. cbn [c_shoulder] in Hsh.
  destruct sh.
  - assert (Hyes : exists i, In i (injuries p) /\ inj_area i = shoulder)
      by now apply Hsh.
    destruct Hyes as (i0 & Hi0 & Ei0).
    split; [destruct (chooseFocus d p); cbn; lia|].
    intros b Hb. apply in_map_iff in Hb. destruct Hb as (tb & <- & Htb).
    destruct (chooseFocus d p); cbn in Htb;
      repeat (destruct Htb as [<-|Htb]); try contradiction; cbn;
      (split; [lia|]);
      (split; [intros _; split;
                 [discriminate
                 | intros H; first [reflexivity | discriminate H]]
              | intros Hno; exfalso; now apply (Hno i0 Hi0)]).
  - assert (Hno : ~ exists i, In i (injuries p) /\ inj_area i = shoulder).
    { intros H. apply Hsh in H. discriminate H. }
    split; [destruct (chooseFocus d p); cbn; lia|].
    intros b Hb. apply in_map_iff in Hb. destruct Hb as (tb & <- & Htb).
    destruct (chooseFocus d p); cbn in Htb;
      repeat (destruct Htb as [<-|Htb]); try contradiction; cbn;
      (split; [lia|]);
      (split; [intros H; contradiction
              | intros _; split; [discriminate | reflexivity]]).
Qed.

Lemma plan_respects_shoulder_witness :
  let ids := fun _ : nat => "k3x9qz" in
  let inj := {| inj_area := shoulder; aggravates := ["press"];
                severity := 2 |} in
  let p := {| name := ""; email := ""; prof_goal := bjj_strength;
              trainingAgeYrs := 3; daysAvailable := [Mon; Thu];
              minutesPerSession := 60;
              equipment := equipment defaultProfile;
              bjjDays := [Tue; Fri]; injuries := [inj];
              prefs := prefs defaultProfile |} in
  Forall (fun sess =>
            Forall (fun b => move b <> "Barbell Bench Press") (blocks sess))
    (plan (aiGenerateSessions ids p (readinessToday defaultState)
             [] Base 1)).
Proof.
  intros ids inj p. apply Forall_forall. intros sess Hs.
  apply Forall_forall. intros b Hb.
  destruct (proj2 (plan_respects_shoulder ids p _ [] Base 1 sess Hs) b Hb)
    as (_ & Hyes & _).
  apply Hyes. exists inj. split; [now left | reflexivity].
Defined.

(** *** Quick actions *)

Lemma set_blocks_same (sess : Session) : set_blocks (blocks sess) sess = sess.
Proof. now destruct sess. Qed.

Lemma map_blocks_ext (f g : Block -> Block) (ss : list Session) :
  (forall b, f b = g b) -> map_blocks f ss = map_blocks g ss.
Proof.
  intros H. unfold map_blocks. apply map_ext. intros sess.
  now rewrite (map_ext f g H).
Qed.

Lemma map_blocks_id (ss : list Session) : map_blocks (fun b => b) ss = ss.
Proof.
  unfold map_blocks. rewrite <- (map_id ss) at 2. apply map_ext.
  intros sess. rewrite map_id. apply set_blocks_same.
Qed.

Lemma iter_cap_sets_sessions (n : nat) (st : State) :
  sessions (Nat.iter n (applyQuickAction cap_sets) st)
  = map_blocks (Nat.iter n cap_block) (sessions st).
Proof.
  induction n as [|n IH].
  - cbn [Nat.iter]. symmetry. apply map_blocks_id.
  - change (Nat.iter (S n) (applyQuickAction cap_sets) st)
      with (applyQuickAction cap_sets
              (Nat.iter n (applyQuickAction cap_sets) st)).
    unfold applyQuickAction at 1.
    cbn [action_eqb set_sessions sessions].
    rewrite IH, map_blocks_compose. reflexivity.
Qed.

Lemma iter_cap_block (n : nat) (b : Block) :
  slots (Nat.iter (S n) cap_block b)
  = Z.max 1 ((if (slots b =? 0)%Z then 2 else slots b) - Z.of_nat (S n))
  /\ scheme (Nat.iter (S n) cap_block b)
     = append_times (S n) " (−1 set)" (scheme b)
  /\ move (Nat.iter (S n) cap_block b) = move b.
Proof.
  induction n as [|n (IHs & IHc & IHm)].
  - cbn. repeat split.
  - change (Nat.iter (S (S n)) cap_block b)
      with (cap_block (Nat.iter (S n) cap_block b)).
    generalize dependent (Nat.iter (S n) cap_block b). intros b' Hs Hc Hm.
    unfold cap_block. cbn [slots scheme move].
    rewrite Hs, Hc, Hm. repeat split.
    destruct (Z.eqb_spec (slots b) 0);
      destruct (Z.eqb_spec (Z.max 1 (2 - Z.of_nat (S n))) 0);
      destruct (Z.eqb_spec (Z.max 1 (slots b - Z.of_nat (S n))) 0); lia.
Qed.

(** X7. Pressing "Cap Volume" n+1 times leaves every block with slot
    count max(1, s - (n+1)), where s is the original count (2 for a
    count of zero), appends the annotation n+1 times and keeps the
    movement; the slot count is at least one whatever it was before. *)
Theorem cap_sets_repeated (n : nat) (st : State) :
  Forall2
    (blocks_related
       (fun b b' =>
          slots b'
          = Z.max 1 ((if (slots b =? 0)%Z then 2 else slots b)
                     - Z.of_nat (S n))
          /\ (1 <= slots b')%Z
          /\ scheme b' = append_times (S n) " (−1 set)" (scheme b)
          /\ move b' = move b))
    (sessions st)
    (sessions (Nat.iter (S n) (applyQuickAction cap_sets) st)).
Proof.
  rewrite iter_cap_sets_sessions. apply map_blocks_related.
  intros b. destruct (iter_cap_block n b) as (Hs & Hc & Hm).
  rewrite Hs. repeat split; auto. lia.
Qed.

Lemma swap_block_cases (b : Block) :
  (names_press b
   /\ swap_block b
      = {| move := "DB Neutral Press"; alt := alt b;
           scheme := scheme b ++ " (shoulder-safe)";
           targetRPE := targetRPE b; slots := slots b;
           loadSuggestion := loadSuggestion b |})
  \/ (~ names_press b /\ swap_block b = b).
Proof.
  unfold swap_block, names_press.
  destruct (JS.includes (JS.toLowerCase (move b)) "press") eqn:E.
  - left. split; [now apply includes_iff | reflexivity].
  - right. split; [|reflexivity].
    intros H. apply includes_iff in H. congruence.
Qed.

Lemma substitute_names_press (b : Block) :
  move b = "DB Neutral Press" -> names_press b.
Proof. intros E. unfold names_press. rewrite E. now exists "db neutral ", "". Qed.

(** X8. After "Swap Press" every block whose name contains "press" (in
    any letter case) is a DB Neutral Press with the shoulder-safe
    annotation appended; every other block is untouched.  In the result no
    block containing "press" has another name. *)
Theorem swap_press_replaces_every_press (st : State) :
  Forall2
    (blocks_related
       (fun b b' =>
          (names_press b ->
           move b' = "DB Neutral Press"
           /\ scheme b' = scheme b ++ " (shoulder-safe)"
           /\ slots b' = slots b /\ alt b' = alt b
           /\ targetRPE b' = targetRPE b
           /\ loadSuggestion b' = loadSuggestion b)
          /\ (~ names_press b -> b' = b)
          /\ (names_press b' -> move b' = "DB Neutral Press")))
    (sessions st) (sessions (applyQuickAction swap_press st)).
Proof.
  unfold applyQuickAction. cbn [action_eqb set_sessions sessions].
  apply map_blocks_related. intros b.
  destruct (swap_block_cases b) as [[Hp ->] | [Hn ->]]; cbn.
  - repeat split; auto. intros H. contradiction.
  - split; [intros H; contradiction|]. split; [reflexivity|].
    intros H. contradiction.
Qed.

Lemma swap_press_replaces_every_press_witness :
  let b := {| move := "Barbell Bench PRESS"; alt := None;
              scheme := "Top set @8, 2x6 @70–75%";
              targetRPE := 8; slots := 3; loadSuggestion := None |} in
  let sess := {| s_id := "k3x9qz"; day := Thu;
                 title := "Upper Push/Pull (Shoulder-Safe)"; warmup := [];
                 blocks := [b]; finisher := ""; cues := [] |} in
  let st := set_sessions [sess] defaultState in
  map (fun s => map move (blocks s))
    (sessions (applyQuickAction swap_press st))
  = [["DB Neutral Press"]].
Proof.
  intros b sess st.
  pose proof (swap_press_replaces_every_press st) as H. cbn in H.
  inversion H as [|s0 s0' l l' Hs Hl]; subst.
  destruct Hs as (_ & _ & _ & _ & _ & _ & Hb).
  inversion Hb as [|b0 b0' m m' Hc Hm]; subst.
  destruct Hc as (Hyes & _).
  destruct Hyes as (Hmove & _).
  - now exists "barbell bench ", "".
  - cbn in Hmove |- *. reflexivity.
Defined.

(** X9. "Swap Press" is not idempotent: the substitute name itself
    contains "press", so a second press of the button appends the
    annotation once more to every block the first one swapped. *)
Theorem swap_press_twice_annotates_twice (st : State) :
  Forall2
    (blocks_related
       (fun b b' =>
          (names_press b ->
           move b' = "DB Neutral Press"
           /\ scheme b'
              = (scheme b ++ " (shoulder-safe)") ++ " (shoulder-safe)")
          /\ (~ names_press b -> b' = b)))
    (sessions st)
    (sessions (applyQuickAction swap_press
                 (applyQuickAction swap_press st))).
Proof.
  unfold applyQuickAction. cbn [action_eqb set_sessions sessions].
  rewrite map_blocks_compose. apply map_blocks_related. intros b.
  destruct (swap_block_cases b) as [[Hp ->] | [Hn ->]].
  - split; [intros _ | intros H; contradiction].
    cbn. split; reflexivity.
  - destruct (swap_block_cases b) as [[Hp _] | [_ ->]]; [contradiction|].
    split; [intros H; contradiction | reflexivity].
Qed.

Lemma swap_press_twice_annotates_twice_witness :
  let b := {| move := "Barbell Bench Press"; alt := None;
              scheme := "Top set @8"; targetRPE := 8; slots := 3;
              loadSuggestion := None |} in
  let sess := {| s_id := "k3x9qz"; day := Thu;
                 title := "Upper Push/Pull (Shoulder-Safe)"; warmup := [];
                 blocks := [b]; finisher := ""; cues := [] |} in
  let st := set_sessions [sess] defaultState in
  map (fun s => map scheme (blocks s))
    (sessions (applyQuickAction swap_press
                 (applyQuickAction swap_press st)))
  = [["Top set @8 (shoulder-safe) (shoulder-safe)"]].
Proof.
  intros b sess st.
  pose proof (swap_press_twice_annotates_twice st) as H. cbn in H.
  inversion H as [|s0 s0' l l' Hs Hl]; subst.
  destruct Hs as (_ & _ & _ & _ & _ & _ & Hb).
  inversion Hb as [|b0 b0' m m' Hc Hm]; subst.
  destruct Hc as (Hyes & _).
  destruct Hyes as (_ & Hscheme).
  - now exists "barbell bench ", "".
  - cbn in Hscheme |- *. reflexivity.
Defined.

Lemma map_blocks_shape (f : Block -> Block) (ss : list Session) :
  map s_id (map_blocks f ss) = map s_id ss
  /\ map day (map_blocks f ss) = map day ss
  /\ map (fun s => List.length (blocks s)) (map_blocks f ss)
     = map (fun s => List.length (blocks s)) ss.
Proof.
  unfold map_blocks. rewrite !map_map. cbn.
  repeat split; try reflexivity.
  apply map_ext. intros s. apply length_map.
Qed.

(** X10. No quick action touches the profile, the week index, the logs
    or the readiness snapshot, adds or removes a session or a block, or
    changes a session's identifier or day.  Only "Toggle Deload" changes
    the phase; it leaves the sessions as they are and pressing it again
    changes nothing. *)
Theorem quick_actions_frame (a : action) (st : State) :
  let st' := applyQuickAction a st in
  profile st' = profile st
  /\ weekIndex st' = weekIndex st
  /\ sessionLogs st' = sessionLogs st
  /\ readinessToday st' = readinessToday st
  /\ map s_id (sessions st') = map s_id (sessions st)
  /\ map day (sessions st') = map day (sessions st)
  /\ map (fun s => List.length (blocks s)) (sessions st')
     = map (fun s => List.length (blocks s)) (sessions st)
  /\ currentPhase st' = (if action_eqb a deload then Deload
                         else currentPhase st)
  /\ (a = deload -> sessions st' = sessions st
                    /\ applyQuickAction deload st' = st').
Proof.
  destruct a; unfold applyQuickAction;
    cbn [action_eqb set_sessions set_phase sessions profile weekIndex
         sessionLogs readinessToday currentPhase];
    repeat split; try reflexivity; try discriminate;
    try apply map_blocks_shape.
Qed.

Lemma quick_actions_frame_witness :
  applyQuickAction deload (applyQuickAction deload defaultState)
  = applyQuickAction deload defaultState.
Proof.
  apply (proj2 (proj2 (proj2 (proj2 (proj2 (proj2 (proj2 (proj2
           (quick_actions_frame deload defaultState))))))))).
  reflexivity.
Defined.

(** *** Week progression *)

Lemma nextWeek_phase_eq (st : State) :
  currentPhase (nextWeek st) = phase_rule (weekIndex st) (currentPhase st).
Proof.
  unfold nextWeek, phase_rule. cbn [currentPhase]. rewrite rem4_mod4.
  destruct ((weekIndex st + 1) mod 4 =? 0)%Z; [reflexivity|].
  destruct (currentPhase st); reflexivity.
Qed.

(** X11. Right after an advance the phase is Deload exactly when the new
    week index is a multiple of four. *)
Theorem nextWeek_deload_iff_fourth_week (st : State) :
  currentPhase (nextWeek st) = Deload
  <-> (weekIndex (nextWeek st) mod 4 = 0)%Z.
Proof.
  rewrite nextWeek_phase_eq. unfold phase_rule.
  change (weekIndex (nextWeek st)) with (weekIndex st + 1)%Z.
  destruct (Z.eqb_spec ((weekIndex st + 1) mod 4) 0) as [E|E].
  - tauto.
  - split; [|contradiction]. destruct (currentPhase st); discriminate.
Qed.

Lemma nextWeek_in_cycle (st : State) : in_cycle st -> in_cycle (nextWeek st).
Proof.
  unfold in_cycle. intros H. rewrite nextWeek_phase_eq, H.
  change (weekIndex (nextWeek st)) with (weekIndex st + 1)%Z.
  unfold phase_rule, phase_of_week.
  repeat match goal with
         | |- context [(?a =? ?b)%Z] => destruct (Z.eqb_spec a b)
         end; try reflexivity; exfalso; Z.div_mod_to_equations; lia.
Qed.

Lemma nextWeek_forced_in_cycle (st : State) :
  ((weekIndex st + 1) mod 4 = 0)%Z -> in_cycle (nextWeek st).
Proof.
  intros H. unfold in_cycle. rewrite nextWeek_phase_eq.
  change (weekIndex (nextWeek st)) with (weekIndex st + 1)%Z.
  unfold phase_rule, phase_of_week. rewrite H. reflexivity.
Qed.

Lemma iter_nextWeek_in_cycle (n : nat) (st : State) :
  in_cycle st -> in_cycle (Nat.iter n nextWeek st).
Proof.
  intros H. induction n as [|n IH]; [exact H|].
  change (Nat.iter (S n) nextWeek st)
    with (nextWeek (Nat.iter n nextWeek st)).
  now apply nextWeek_in_cycle.
Qed.

Lemma enters_cycle_within_four (st : State) :
  exists k, (1 <= k <= 4)%nat /\ in_cycle (Nat.iter k nextWeek st).
Proof.
  assert (H : forall k,
             ((weekIndex st + Z.of_nat (S k)) mod 4 = 0)%Z ->
             in_cycle (Nat.iter (S k) nextWeek st)).
  { intros k Hk.
    change (Nat.iter (S k) nextWeek st)
      with (nextWeek (Nat.iter k nextWeek st)).
    apply nextWeek_forced_in_cycle. rewrite iter_nextWeek_index.
    rewrite <- Hk. f_equal. lia. }
  assert (C : (weekIndex st mod 4 = 0 \/ weekIndex st mod 4 = 1
               \/ weekIndex st mod 4 = 2 \/ weekIndex st mod 4 = 3)%Z)
    by (Z.div_mod_to_equations; lia).
  destruct C as [C|[C|[C|C]]].
  - exists 4%nat. split; [lia|]. apply H. Z.div_mod_to_equations. lia.
  - exists 3%nat. split; [lia|]. apply H. Z.div_mod_to_equations. lia.
  - exists 2%nat. split; [lia|]. apply H. Z.div_mod_to_equations. lia.
  - exists 1%nat. split; [lia|]. apply H. Z.div_mod_to_equations. lia.
Qed.

(** X12. From any state, after four or more advances the phase depends
    on the week index alone: Deload on multiples of four, then Base,
    Build and Peak in turn. *)
Theorem phase_cycle_after_four_advances (st : State) (n : nat) :
  (4 <= n)%nat ->
  currentPhase (Nat.iter n nextWeek st)
  = phase_of_week (weekIndex st + Z.of_nat n).
Proof.
  intros Hn.
  destruct (enters_cycle_within_four st) as (k & Hk & Hc).
  replace n with ((n - k) + k)%nat by lia.
  rewrite Nat.iter_add.
  pose proof (iter_nextWeek_in_cycle (n - k) _ Hc) as H.
  unfold in_cycle in H. rewrite H, !iter_nextWeek_index.
  f_equal. lia.
Qed.

Lemma phase_cycle_after_four_advances_witness :
  currentPhase (Nat.iter 6 nextWeek (set_phase Peak defaultState)) = Peak.
Proof.
  apply (phase_cycle_after_four_advances (set_phase Peak defaultState) 6).
  lia.
Defined.

(** X13. An advance discards what "Cap Volume" and "Swap Press" did to
    the plan, and so does generating the week again; after "Toggle
    Deload" an advance leads to Base unless the new week is a multiple of
    four. *)
Theorem quick_actions_do_not_outlive_the_week (st : State)
        (shortId : nat -> string) :
  nextWeek (applyQuickAction cap_sets st) = nextWeek st
  /\ nextWeek (applyQuickAction swap_press st) = nextWeek st
  /\ generateWeek shortId (applyQuickAction cap_sets st)
     = generateWeek shortId st
  /\ generateWeek shortId (applyQuickAction swap_press st)
     = generateWeek shortId st
  /\ currentPhase (nextWeek (applyQuickAction deload st))
     = (if ((weekIndex st + 1) mod 4 =? 0)%Z then Deload else Base).
Proof.
  repeat split; try reflexivity.
  rewrite nextWeek_phase_eq. reflexivity.
Qed.

(** *** Logging *)

Lemma logged_count_app (w : Z) (a b : list SessionLog) :
  logged_count w (a ++ b) = (logged_count w a + logged_count w b)%nat.
Proof.
  induction a as [|l a IH]; cbn [app logged_count]; [reflexivity|].
  rewrite IH. lia.
Qed.

(** X14. Logging a session appends exactly one entry, stamped with the
    current week index and never marked missed, after the existing logs,
    which stay as they are; the count of logs of the current week goes up
    by one, the count of any other week stays, and the plan, the phase
    and the week index are not touched. *)
Theorem logSession_appends_one (id today : string) (session : Session)
        (log : LogPayload) (st : State) :
  let st' := logSession id today session log st in
  exists entry,
    sessionLogs st' = (sessionLogs st ++ [entry])%list
    /\ l_weekIndex entry = weekIndex st
    /\ missed entry = false
    /\ completed entry = lp_completed log
    /\ painFlag entry = lp_painFlag log
    /\ logged_count (weekIndex st') (sessionLogs st')
       = S (logged_count (weekIndex st) (sessionLogs st))
    /\ (forall w, w <> weekIndex st ->
          logged_count w (sessionLogs st') = logged_count w (sessionLogs st))
    /\ sessions st' = sessions st
    /\ currentPhase st' = currentPhase st
    /\ weekIndex st' = weekIndex st.
Proof.
  cbn zeta. exists (log_entry id today (weekIndex st) log).
  unfold logSession.
  cbn [set_logs sessionLogs weekIndex sessions currentPhase].
  repeat split.
  - rewrite logged_count_app. cbn. rewrite Z.eqb_refl. lia.
  - intros w Hw. rewrite logged_count_app. cbn.
    destruct (Z.eqb_spec (weekIndex st) w); [congruence | lia].
Qed.

Lemma logSession_appends_one_witness :
  let log := {| lp_completed := Some []; lp_painFlag := 0;
                lp_notes := "" |} in
  let sess := plan_session defaultProfile (inferConstraints defaultProfile)
                [] "a1b2c3" Mon in
  logged_count 0
    (sessionLogs (logSession "k3x9qz" "2024-05-06" sess log defaultState))
  = logged_count 0 (sessionLogs defaultState).
Proof.
  intros log sess.
  destruct (logSession_appends_one "k3x9qz" "2024-05-06" sess log
              defaultState)
    as (entry & _ & _ & _ & _ & _ & _ & Hother & _).
  apply Hother. discriminate.
Defined.

Lemma repeat_rows (bs : list Block) :
  map rpe_or_zero
    (map (fun b => {| c_move := Some (move b); c_sets := 0; c_reps := 0;
                      c_rpe := 7; lastLoad := Some 0 |}) bs)
  = repeat 7 (List.length bs).
Proof. induction bs as [|b bs IH]; cbn; [reflexivity | now rewrite IH]. Qed.

Lemma unedited_average_low_small : unedited_average_low_upto 50 = true.
Proof. vm_compute. reflexivity. Qed.

(** X15. Saving the form of a session card without editing it never
    raises a red flag, for any session of up to 50 blocks: the pain flag
    is 0, the entry is not missed and the average effort is below 9. *)
Theorem unedited_log_is_no_red_flag (id today : string) (session : Session)
        (wk : Z) :
  (List.length (blocks session) <= 50)%nat ->
  flag_filter (log_entry id today wk (initial_log session)) = false.
Proof.
  intros Hn. unfold flag_filter, high_rpe, log_entry, initial_log.
  cbn [painFlag missed rpeAvg lp_painFlag lp_completed option_map].
  rewrite repeat_rows.
  generalize unedited_average_low_small. unfold unedited_average_low_upto.
  rewrite forallb_forall. intros H.
  specialize (H (List.length (blocks session))).
  unfold unedited_average_low in H.
  rewrite negb_true_iff in H. rewrite H; [reflexivity|].
  apply in_seq. lia.
Qed.

Lemma unedited_log_is_no_red_flag_witness :
  flag_filter
    (log_entry "k3x9qz" "2024-05-06" 1
       (initial_log
          (plan_session defaultProfile (inferConstraints defaultProfile) []
             "a1b2c3" Mon))) = false.
Proof. apply unedited_log_is_no_red_flag. cbn. lia. Defined.

(** *** Load estimator, continued *)

(** X16. When every completed set in the logs has a missing, zero or
    otherwise falsy load, as in forms saved unedited, every suggestion is
    either null or 0. *)
Theorem falsy_loads_suggest_zero (target : string) (logs : list SessionLog) :
  (forall l cs c, In l logs -> completed l = Some cs -> In c cs ->
                  load_falsy c) ->
  suggestStartingLoad target logs = None
  \/ suggestStartingLoad target logs = Some 0.
Proof.
  intros H.
  destruct (scan_entry_cases logs) as [[E _] | (l & _ & Hl)].
  - left. unfold suggestStartingLoad. now rewrite E.
  - rewrite (suggest_in_entry _ _ _ Hl).
    destruct (suggestion_in_cases target l) as [[E _] | (c & Hc & E)].
    + now left.
    + right. rewrite E.
      destruct Hl as (older & newer & -> & _ & _).
      destruct Hc as (before & after & Hcs & _ & _).
      rewrite (load_or_zero_falsy c); [reflexivity|].
      apply (H l (before ++ c :: after)%list c).
      * apply in_or_app. right. now left.
      * exact Hcs.
      * apply in_or_app. right. now left.
Qed.

Lemma falsy_loads_suggest_zero_witness :
  let sess := plan_session defaultProfile (inferConstraints defaultProfile)
                [] "a1b2c3" Mon in
  let entry := log_entry "k3x9qz" "2024-05-06" 1 (initial_log sess) in
  suggestStartingLoad "Back Squat" [entry] = None
  \/ suggestStartingLoad "Back Squat" [entry] = Some 0.
Proof.
  intros sess entry. apply falsy_loads_suggest_zero.
  intros l cs c [<-|[]] [= <-] Hc.
  right. exists 0. split; [|reflexivity].
  cbn in Hc. repeat (destruct Hc as [<-|Hc]); try reflexivity.
  contradiction.
Defined.

Lemma toLowerCase_app (a b : string) :
  JS.toLowerCase (a ++ b) = JS.toLowerCase a ++ JS.toLowerCase b.
Proof. induction a as [|c a IH]; cbn; [reflexivity | now rewrite IH]. Qed.

Lemma string_app_empty_r (a : string) : a ++ "" = a.
Proof. induction a as [|c a IH]; cbn; [reflexivity | now rewrite IH]. Qed.

Lemma same_name_matches (target : string) (c : CompletedSet) :
  c_move c = Some target -> fuzzy_match target c.
Proof.
  intros E. exists target, (JS.split_space_0 target), "".
  destruct (split_space_0_decompose target) as [H | [rest H]].
  - exists "". split; [exact E|]. split; [now apply first_token_unique|].
    cbn. rewrite <- H. symmetry. apply string_app_empty_r.
  - exists (JS.toLowerCase (" " ++ rest)).
    split; [exact E|]. split; [now apply first_token_unique|].
    transitivity (JS.toLowerCase (JS.split_space_0 target ++ " " ++ rest));
      [f_equal; exact H | rewrite toLowerCase_app; reflexivity].
Qed.

(** X17. If the scanned entry (the most recent one with completed sets)
    holds a set logged under exactly the target name, the suggestion is
    never null. *)
Theorem same_name_always_suggests (target : string)
        (logs : list SessionLog) (l : SessionLog) (cs : list CompletedSet)
        (c : CompletedSet) :
  most_recent_with_sets logs l ->
  completed l = Some cs -> In c cs -> c_move c = Some target ->
  suggestStartingLoad target logs <> None.
Proof.
  intros Hl Hcs Hc Hm.
  rewrite (suggest_in_entry _ _ _ Hl).
  destruct (suggestion_in_cases target l) as [[_ Hn] | (c' & _ & E)].
  - exfalso. apply (Hn cs c Hcs Hc). now apply same_name_matches.
  - rewrite E. discriminate.
Qed.

Lemma same_name_always_suggests_witness :
  let squat := {| c_move := Some "Back Squat"; c_sets := 3; c_reps := 5;
                  c_rpe := 8; lastLoad := Some 225 |} in
  let l := {| l_id := "k3x9qz"; l_weekIndex := 1; l_date := "2024-05-06";
              completed := Some [squat]; rpeAvg := Some 8; painFlag := 0;
              l_notes := ""; missed := false |} in
  suggestStartingLoad "Back Squat" [l] <> None.
Proof.
  intros squat l.
  apply (same_name_always_suggests "Back Squat" [l] l [squat] squat).
  - exists [], []. split; [reflexivity|]. split.
    + now exists squat, [].
    + intros x [].
  - reflexivity.
  - now left.
  - reflexivity.
Defined.

(** X18. A target name that is empty or starts with a space has an empty
    first token, which every named set contains: the first set of the
    scanned entry then decides the suggestion whatever its movement. *)
Theorem blank_token_matches_first_set (rest : string)
        (logs : list SessionLog) (l : SessionLog) (c : CompletedSet)
        (cs : list CompletedSet) (m : string) :
  most_recent_with_sets logs l ->
  completed l = Some (c :: cs) -> c_move c = Some m ->
  suggestStartingLoad "" logs
  = Some (JS.Math_round (load_or_zero c * 1.02))
  /\ suggestStartingLoad (" " ++ rest) logs
     = Some (JS.Math_round (load_or_zero c * 1.02)).
Proof.
  intros Hl Hcs Hm.
  assert (F : forall target, JS.split_space_0 target = "" ->
                first_match target l c).
  { intros target Ht. exists [], cs. split; [exact Hcs|]. split.
    - apply move_matches_iff. unfold move_matches. rewrite Hm, Ht.
      apply includes_iff. exists "", (JS.toLowerCase m). reflexivity.
    - intros x []. }
  split; rewrite (suggest_in_entry _ _ _ Hl);
    apply suggestion_in_match, F; reflexivity.
Qed.

Lemma blank_token_matches_first_set_witness :
  let row := {| c_move := Some "Chest-Supported Row"; c_sets := 3;
                c_reps := 8; c_rpe := 8; lastLoad := Some 135 |} in
  let l := {| l_id := "k3x9qz"; l_weekIndex := 1; l_date := "2024-05-06";
              completed := Some [row]; rpeAvg := Some 8; painFlag := 0;
              l_notes := ""; missed := false |} in
  suggestStartingLoad " Back Squat" [l]
  = Some (JS.Math_round (135 * 1.02)).
Proof.
  intros row l.
  apply (proj2 (blank_token_matches_first_set "Back Squat" [l] l row []
                  "Chest-Supported Row"
                  (ex_intro _ []
                     (ex_intro _ []
                        (conj eq_refl
                           (conj (ex_intro _ row (ex_intro _ [] eq_refl))
                                 (fun x (H : In x []) => match H with end)))))
                  eq_refl eq_refl)).
Defined.

(** *** From a log to next week's plan *)

Lemma lastWeek_after_log_and_advance (id today : string) (session : Session)
      (log : LogPayload) (st : State) :
  lastWeekLogs (nextWeek (logSession id today session log st))
  = (filter (in_week (weekIndex st)) (sessionLogs st)
     ++ [log_entry id today (weekIndex st) log])%list.
Proof.
  unfold lastWeekLogs, nextWeek, logSession.
  cbn [set_logs sessionLogs weekIndex].
  replace (weekIndex st + 1 - 1)%Z with (weekIndex st) by lia.
  rewrite filter_app. cbn [filter]. unfold in_week at 2.
  cbn [log_entry l_weekIndex]. now rewrite Z.eqb_refl.
Qed.

(** X19. A session logged with at least one completed set and followed
    by an advance is the entry next week's generation scans: every block
    with target effort 8 or more gets the suggestion computed from that
    entry alone, every other block gets none. *)
Theorem last_log_decides_next_week (id today : string) (session : Session)
        (log : LogPayload) (st : State) (shortId : nat -> string)
        (c : CompletedSet) (cs : list CompletedSet) :
  lp_completed log = Some (c :: cs) ->
  let entry := log_entry id today (weekIndex st) log in
  let st' := generateWeek shortId
               (nextWeek (logSession id today session log st)) in
  (forall target,
      suggestStartingLoad target
        (lastWeekLogs (nextWeek (logSession id today session log st)))
      = suggestion_in target entry)
  /\ forall sess b,
       In sess (sessions st') -> In b (blocks sess) ->
       loadSuggestion b
       = if 8 <=? targetRPE b then suggestion_in (move b) entry else None.
Proof.
  intros Hc entry st'.
  assert (F : forall target,
             suggestStartingLoad target
               (lastWeekLogs (nextWeek (logSession id today session log st)))
             = suggestion_in target entry).
  { intros target. apply suggest_in_entry.
    rewrite lastWeek_after_log_and_advance.
    exists (filter (in_week (weekIndex st)) (sessionLogs st)), [].
    split; [reflexivity|]. split.
    - exists c, cs. exact Hc.
    - intros x []. }
  split; [exact F|].
  intros sess b Hs Hb. subst st'.
  unfold generateWeek in Hs. cbn [set_sessions sessions] in Hs.
  cbn [aiGenerateSessions plan] in Hs.
  apply plan_days_In in Hs. destruct Hs as (j & d & _ & ->).
  cbn [plan_session blocks] in Hb.
  apply in_map_iff in Hb. destruct Hb as (tb & <- & _).
  rewrite plan_block_suggestion. cbn [plan_block targetRPE move].
  unfold JS.geb. destruct (8 <=? t_targetRPE tb); [|reflexivity].
  apply F.
Qed.

Lemma last_log_decides_next_week_witness :
  let squat := {| c_move := Some "Back Squat"; c_sets := 3; c_reps := 5;
                  c_rpe := 8; lastLoad := Some 225 |} in
  let log := {| lp_completed := Some [squat]; lp_painFlag := 0;
                lp_notes := "" |} in
  let sess := plan_session defaultProfile (inferConstraints defaultProfile)
                [] "a1b2c3" Mon in
  suggestStartingLoad "Back Squat"
    (lastWeekLogs
       (nextWeek (logSession "k3x9qz" "2024-05-06" sess log defaultState)))
  = Some (JS.Math_round (225 * 1.02)).
Proof.
  intros squat log sess.
  apply (proj1 (last_log_decides_next_week "k3x9qz" "2024-05-06" sess log
                  defaultState (fun _ => "q7w8e9") squat [] eq_refl)
           "Back Squat").
Defined.

(** *** The log form *)

Lemma map_idx_from_length {A : Type} (f : A -> nat -> A) (l : list A)
      (k : nat) :
  List.length (JS.map_idx_from f l k) = List.length l.
Proof.
  revert k. induction l as [|x l IH]; intros k; cbn; [reflexivity|].
  now rewrite IH.
Qed.

Lemma map_idx_from_nth {A : Type} (f : A -> nat -> A) (l : list A)
      (k j : nat) :
  nth_error (JS.map_idx_from f l k) j
  = option_map (fun x => f x (k + j)%nat) (nth_error l j).
Proof.
  revert k j. induction l as [|x l IH]; intros k j; cbn.
  - now destruct j.
  - destruct j as [|j]; cbn.
    + now rewrite Nat.add_0_r.
    + rewrite IH. now replace (S k + j)%nat with (k + S j)%nat by lia.
Qed.

Lemma map_idx_from_same {A : Type} (f : A -> nat -> A) (l : list A)
      (k : nat) :
  (forall x j, (k <= j < k + List.length l)%nat -> f x j = x) ->
  JS.map_idx_from f l k = l.
Proof.
  revert k. induction l as [|x l IH]; intros k H; cbn; [reflexivity|].
  rewrite H by (cbn; lia). f_equal. apply IH.
  intros y j Hj. apply H. cbn. lia.
Qed.

(** X20. Editing row i of the log form patches that row and no other and
    keeps the number of rows; an index past the last row leaves the form
    as it is. *)
Theorem updateCompleted_patches_one_row (i : nat) (patch : row_patch)
        (rows : list CompletedSet) :
  List.length (updateCompleted i patch rows) = List.length rows
  /\ nth_error (updateCompleted i patch rows) i
     = option_map (fun c => apply_patch c patch) (nth_error rows i)
  /\ (forall j, j <> i ->
        nth_error (updateCompleted i patch rows) j = nth_error rows j)
  /\ ((List.length rows <= i)%nat -> updateCompleted i patch rows = rows).
Proof.
  unfold updateCompleted, JS.map_idx.
  split; [apply map_idx_from_length|]. split; [|split].
  - rewrite map_idx_from_nth. cbn. rewrite Nat.eqb_refl. reflexivity.
  - intros j Hj. rewrite map_idx_from_nth. cbn.
    destruct (Nat.eqb_spec j i); [contradiction|].
    now destruct (nth_error rows j).
  - intros Hi. apply map_idx_from_same. intros x j Hj.
    destruct (Nat.eqb_spec j i); [lia | reflexivity].
Qed.

Lemma updateCompleted_patches_one_row_witness :
  let rows := match lp_completed
                      (initial_log
                         (plan_session defaultProfile
                            (inferConstraints defaultProfile) []
                            "a1b2c3" Mon)) with
              | Some rs => rs
              | None => []
              end in
  nth_error (updateCompleted 0 (patch_lastLoad 225) rows) 1
  = nth_error rows 1
  /\ updateCompleted 4 (patch_lastLoad 225) rows = rows.
Proof.
  intros rows. split.
  - apply (proj1 (proj2 (proj2 (updateCompleted_patches_one_row
                                  0 (patch_lastLoad 225) rows)))).
    discriminate.
  - apply (proj2 (proj2 (proj2 (updateCompleted_patches_one_row
                                  4 (patch_lastLoad 225) rows)))).
    cbn. lia.
Defined.

(** *** States reached through the handlers *)

Lemma plan_session_slots (p : Profile) (c : Constraints)
      (lw : list SessionLog) (id : string) (d : weekday) (b : Block) :
  In b (blocks (plan_session p c lw id d)) -> (1 <= slots b)%Z.
Proof.
  cbn [plan_session blocks]. intros Hb.
  apply in_map_iff in Hb. destruct Hb as (tb & <- & Htb).
  destruct c as [sh].
  destruct (chooseFocus d p), sh; cbn in Htb;
    repeat (destruct Htb as [<-|Htb]); try contradiction; cbn; lia.
Qed.

Lemma map_blocks_In (f : Block -> Block) (ss : list Session)
      (sess : Session) (b : Block) :
  In sess (map_blocks f ss) -> In b (blocks sess) ->
  exists sess0 b0, In sess0 ss /\ In b0 (blocks sess0) /\ b = f b0.
Proof.
  unfold map_blocks. intros Hs Hb.
  apply in_map_iff in Hs. destruct Hs as (sess0 & <- & Hs0).
  cbn [set_blocks blocks] in Hb.
  apply in_map_iff in Hb. destruct Hb as (b0 & <- & Hb0).
  now exists sess0, b0.
Qed.

Lemma map_blocks_length (f : Block -> Block) (ss : list Session) :
  List.length (map_blocks f ss) = List.length ss.
Proof. unfold map_blocks. apply length_map. Qed.

Lemma swap_block_slots (b : Block) : slots (swap_block b) = slots b.
Proof.
  unfold swap_block.
  now destruct (JS.includes (JS.toLowerCase (move b)) "press").
Qed.

Lemma cap_block_slots (b : Block) : (1 <= slots (cap_block b))%Z.
Proof. unfold cap_block. cbn. lia. Qed.

Lemma state_ok_default : state_ok defaultState.
Proof.
  unfold state_ok. cbn. repeat split; try lia; try contradiction.
  - repeat constructor; cbn; intuition discriminate.
  - repeat constructor; cbn; intuition discriminate.
Qed.

Lemma handle_keeps_state_ok (e : event) (s : State) :
  state_ok s -> state_ok (handle e s).
Proof.
  intros (Hw & Hl & Hd & Hb & Hn & Hs).
  destruct e as [ids | id today sess log | a | | d | d | ed | r];
    cbn [handle].
  - (* generate *)
    unfold generateWeek, state_ok.
    cbn [set_sessions aiGenerateSessions plan weekIndex sessionLogs
         profile sessions].
    split; [exact Hw|]. split; [exact Hl|]. split; [exact Hd|].
    split; [exact Hb|]. split.
    + rewrite <- (length_map day), plan_days_day.
      now apply NoDup_weekdays_length.
    + intros x b Hx Hbx. apply plan_days_In in Hx.
      destruct Hx as (j & d & _ & ->).
      now apply plan_session_slots in Hbx.
  - (* log *)
    unfold logSession, state_ok.
    cbn [set_logs weekIndex sessionLogs profile sessions].
    split; [exact Hw|]. split; [|now repeat split].
    intros l Hin. apply in_app_or in Hin.
    destruct Hin as [Hin|[<-|[]]]; [now apply Hl|].
    cbn. split; [lia | reflexivity].
  - (* quick action *)
    destruct a; unfold applyQuickAction, state_ok;
      cbn [action_eqb set_sessions set_phase weekIndex sessionLogs profile
           sessions];
      (split; [exact Hw|]); (split; [exact Hl|]); (split; [exact Hd|]);
      (split; [exact Hb|]).
    + split; [exact Hn | exact Hs].
    + split; [now rewrite map_blocks_length|].
      intros x b Hx Hbx.
      destruct (map_blocks_In _ _ _ _ Hx Hbx) as (x0 & b0 & _ & _ & ->).
      apply cap_block_slots.
    + split; [now rewrite map_blocks_length|].
      intros x b Hx Hbx.
      destruct (map_blocks_In _ _ _ _ Hx Hbx) as (x0 & b0 & Hx0 & Hb0 & ->).
      rewrite swap_block_slots. now apply (Hs x0).
  - (* next week *)
    unfold nextWeek, state_ok.
    cbn [weekIndex sessionLogs profile sessions].
    split; [lia|]. split.
    + intros l Hin. destruct (Hl l Hin) as [Hr Hm]. split; [lia | exact Hm].
    + split; [exact Hd|]. split; [exact Hb|]. split; [cbn; lia|].
      intros x b [].
  - (* toggle day *)
    unfold state_ok.
    cbn [set_profile toggleDay weekIndex sessionLogs profile sessions
         daysAvailable bjjDays].
    split; [exact Hw|]. split; [exact Hl|].
    split; [now apply toggle_NoDup|]. now repeat split.
  - (* toggle BJJ day *)
    unfold state_ok.
    cbn [set_profile toggleBJJ weekIndex sessionLogs profile sessions
         daysAvailable bjjDays].
    split; [exact Hw|]. split; [exact Hl|]. split; [exact Hd|].
    split; [now apply toggle_NoDup|]. now split.
  - (* other profile fields *)
    unfold state_ok.
    cbn [set_profile edit_profile weekIndex sessionLogs profile sessions
         daysAvailable bjjDays].
    exact (conj Hw (conj Hl (conj Hd (conj Hb (conj Hn Hs))))).
  - (* readiness *)
    unfold state_ok.
    cbn [set_readiness weekIndex sessionLogs profile sessions].
    exact (conj Hw (conj Hl (conj Hd (conj Hb (conj Hn Hs))))).
Qed.

Lemma run_keeps_state_ok (es : list event) (s : State) :
  state_ok s -> state_ok (run es s).
Proof.
  unfold run. revert s. induction es as [|e es IH]; intros s H; [exact H|].
  cbn [fold_left]. apply IH. now apply handle_keeps_state_ok.
Qed.

(** X21. Whatever sequence of generate, log, quick-action, next-week,
    day-chip, profile and readiness actions is applied to the default
    state: the
    week index is at least 1; every log carries a week index between 1
    and the current one and is not marked missed; the available days and
    the BJJ days hold no duplicates; there are at most seven planned
    sessions; and every planned block has a slot count of at least one. *)
Theorem reachable_states_are_ok (es : list event) :
  state_ok (run es defaultState).
Proof. apply run_keeps_state_ok, state_ok_default. Qed.

Lemma reachable_ok_logs (es : list event) :
  forall l, In l (sessionLogs (run es defaultState)) -> missed l = false.
Proof.
  destruct (run_keeps_state_ok es _ state_ok_default) as (_ & Hl & _).
  intros l Hin. now apply Hl.
Qed.

Lemma reason_not_missed (N : float -> string) (l : SessionLog) :
  missed l = false -> flag_reason N l <> "Missed session".
Proof.
  intros Hm. unfold flag_reason. rewrite Hm.
  destruct (3 <=? painFlag l)%Z; cbn; discriminate.
Qed.

(** X22. In no state reached through those actions does the triage list
    show the reason "Missed session": the log form has no way to mark a
    session missed. *)
Theorem no_missed_flag_is_reachable (Number_toString : float -> string)
        (es : list event) (f : RedFlag) :
  In f (redFlags Number_toString (run es defaultState)) ->
  reason f <> "Missed session".
Proof.
  pose proof (reachable_ok_logs es) as Hl.
  unfold redFlags. intros Hf.
  apply in_map_iff in Hf. destruct Hf as (l & <- & Hin).
  apply filter_In in Hin. destruct Hin as [Hin _].
  apply filter_In in Hin. destruct Hin as [Hin _].
  cbn [to_flag reason]. apply reason_not_missed. now apply Hl.
Qed.

(** *** Adherence, continued *)

Lemma adherence_exact_at (st : State) :
  (1 <= List.length (sessions st) <= 39)%nat ->
  (logged_count (weekIndex st) (sessionLogs st) <= 400)%nat ->
  adherence st
  = JS.float_of_Z
      (exact_percentage (List.length (sessions st))
         (logged_count (weekIndex st) (sessionLogs st))).
Proof.
  intros Hp Hl. rewrite adherence_unfold.
  destruct (Nat.eqb_spec (List.length (sessions st)) 0) as [Hz|_]; [lia|].
  pose proof (adherence_agrees_at _ _ Hp Hl) as H.
  unfold adherence_agrees in H. apply andb_true_iff in H.
  now apply FloatAxioms.Leibniz.eqb_spec.
Qed.

Lemma exact_percentage_multiple (p k : nat) :
  (1 <= p)%nat -> exact_percentage p (k * p) = (100 * Z.of_nat k)%Z.
Proof.
  intros Hp. unfold exact_percentage.
  symmetry. apply (Z.div_unique _ _ _ (Z.of_nat p)); lia.
Qed.

Lemma no_missed_flag_is_reachable_witness :
  let log := {| lp_completed := Some []; lp_painFlag := 4;
                lp_notes := "" |} in
  let sess := plan_session defaultProfile (inferConstraints defaultProfile)
                [] "a1b2c3" Mon in
  let es := [EvLog "k3x9qz" "2024-05-06" sess log] in
  let f := {| f_id := "k3x9qz"; f_date := "2024-05-06";
              reason := "Pain 4/5" |} in
  In f (redFlags (fun _ => "9.5") (run es defaultState))
  /\ reason f <> "Missed session".
Proof.
  intros log sess es f.
  assert (Hin : In f (redFlags (fun _ => "9.5") (run es defaultState)))
    by (left; reflexivity).
  split; [exact Hin|].
  exact (no_missed_flag_is_reachable (fun _ => "9.5") es f Hin).
Defined.

(** X23. With 1 to 39 planned sessions: no log of the current week gives
    0, as many logs as planned sessions give 100, and adherence is not
    capped, twice as many logs give 200. *)
Theorem adherence_zero_full_and_over (st : State) :
  let planned := List.length (sessions st) in
  let logged := logged_count (weekIndex st) (sessionLogs st) in
  (1 <= planned <= 39)%nat ->
  (logged = 0%nat -> adherence st = 0)
  /\ (logged = planned -> adherence st = 100)
  /\ (logged = (2 * planned)%nat -> adherence st = 200).
Proof.
  intros planned logged Hp.
  assert (F : forall k, (k <= 2)%nat -> logged = (k * planned)%nat ->
                adherence st = JS.float_of_Z (100 * Z.of_nat k)).
  { intros k Hk E. rewrite adherence_exact_at; fold planned logged.
    - rewrite E, exact_percentage_multiple; [reflexivity | lia].
    - exact Hp.
    - rewrite E. nia. }
  split; [|split]; intros E.
  - apply (F 0%nat); [lia | now rewrite E].
  - apply (F 1%nat); [lia | rewrite E; lia].
  - apply (F 2%nat); [lia | exact E].
Qed.

Lemma adherence_zero_full_and_over_witness :
  let l := {| l_id := "k3x9qz"; l_weekIndex := 1; l_date := "2024-05-06";
              completed := Some []; rpeAvg := Some 0; painFlag := 0;
              l_notes := ""; missed := false |} in
  let sess := {| s_id := "a1b2c3"; day := Mon; title := ""; warmup := [];
                 blocks := []; finisher := ""; cues := [] |} in
  let st := {| profile := defaultProfile; currentPhase := Base;
               weekIndex := 1; sessions := [sess];
               sessionLogs := [l; l];
               readinessToday := readinessToday defaultState |} in
  adherence st = 200.
Proof.
  intros l sess st.
  assert (Hp : (1 <= List.length (sessions st) <= 39)%nat) by (cbn; lia).
  apply (proj2 (proj2 (adherence_zero_full_and_over st Hp))).
  reflexivity.
Defined.

(** X24. In every state reached through the actions from the default
    state there are at most seven planned sessions, and with up to 400
    logs of the current week the adherence shown is exactly the
    percentage 100 * logged / planned rounded to the nearest integer,
    halves upwards. *)
Theorem reachable_adherence_is_exact (es : list event) :
  let st := run es defaultState in
  let planned := List.length (sessions st) in
  let logged := logged_count (weekIndex st) (sessionLogs st) in
  (planned <= 7)%nat
  /\ (planned = 0%nat -> adherence st = 0)
  /\ ((1 <= planned)%nat -> (logged <= 400)%nat ->
      adherence st = JS.float_of_Z (exact_percentage planned logged)).
Proof.
  intros st planned logged.
  destruct (run_keeps_state_ok es _ state_ok_default)
    as (_ & _ & _ & _ & Hn & _).
  fold st in Hn. fold planned in Hn.
  split; [exact Hn|]. split.
  - intros E. rewrite adherence_unfold. fold planned. now rewrite E.
  - intros Hp Hl. apply adherence_exact_at; fold planned; [lia | exact Hl].
Qed.

Lemma reachable_adherence_is_exact_witness :
  let es := [EvGenerate (fun _ => "k3x9qz");
             EvLog "a1b2c3" "2024-05-06"
               (plan_session defaultProfile
                  (inferConstraints defaultProfile) [] "k3x9qz" Mon)
               {| lp_completed := Some []; lp_painFlag := 0;
                  lp_notes := "" |}] in
  adherence (run es defaultState) = JS.float_of_Z 50.
Proof.
  intros es.
  apply (proj2 (proj2 (reachable_adherence_is_exact es))); cbn; lia.
Defined.

Lemma logged_count_none (w : Z) (logs : list SessionLog) :
  (forall l, In l logs -> l_weekIndex l <> w) ->
  logged_count w logs = 0%nat /\ filter (in_week w) logs = [].
Proof.
  induction logs as [|l ls IH]; intros H; [now split|].
  cbn [logged_count filter]. unfold in_week at 1.
  destruct (Z.eqb_spec (l_weekIndex l) w) as [E|_].
  - exfalso. apply (H l); [now left | exact E].
  - apply IH. intros x Hx. apply H. now right.
Qed.

Lemma run_app (es1 es2 : list event) (s : State) :
  run (es1 ++ es2) s = run es2 (run es1 s).
Proof. unfold run. apply fold_left_app. Qed.

(** X25. After "Next Week" and a new "Generate Week", in any state
    reached from the default state, no log counts for the new week: the
    triage list is empty and adherence is 0. *)
Theorem new_week_starts_clean (Number_toString : float -> string)
        (es : list event) (shortId : nat -> string) :
  let st := generateWeek shortId (nextWeek (run es defaultState)) in
  logged_count (weekIndex st) (sessionLogs st) = 0%nat
  /\ redFlags Number_toString st = []
  /\ adherence st = 0.
Proof.
  intros st.
  destruct (run_keeps_state_ok es _ state_ok_default) as (_ & Hl & _).
  assert (Hnone : forall l, In l (sessionLogs st) ->
                            l_weekIndex l <> weekIndex st).
  { intros l Hin. subst st.
    cbn [generateWeek set_sessions nextWeek sessionLogs weekIndex] in *.
    destruct (Hl l Hin) as [Hr _]. lia. }
  destruct (logged_count_none _ _ Hnone) as [Hc Hf].
  split; [exact Hc|]. split.
  - unfold redFlags. now rewrite Hf.
  - assert (Hok : state_ok st).
    { subst st.
      change (generateWeek shortId (nextWeek (run es defaultState)))
        with (run [EvNextWeek; EvGenerate shortId] (run es defaultState)).
      apply run_keeps_state_ok, run_keeps_state_ok, state_ok_default. }
    destruct Hok as (_ & _ & _ & _ & Hn & _).
    destruct (Nat.eq_dec (List.length (sessions st)) 0) as [Hz|Hz].
    + rewrite adherence_unfold, Hz. reflexivity.
    + rewrite adherence_exact_at, Hc by lia.
      rewrite (exact_percentage_multiple _ 0) by lia. reflexivity.
Qed.

(** *** Averages *)

Lemma filter_idem {A : Type} (f : A -> bool) (l : list A) :
  filter f (filter f l) = filter f l.
Proof.
  induction l as [|x l IH]; [reflexivity|].
  cbn [filter]. destruct (f x) eqn:E; [|exact IH].
  cbn [filter]. now rewrite E, IH.
Qed.

Lemma filter_all_false {A : Type} (f : A -> bool) (l : list A) :
  (forall x, In x l -> f x = false) -> filter f l = [].
Proof.
  induction l as [|x l IH]; intros H; [reflexivity|].
  cbn [filter]. rewrite (H x) by now left.
  apply IH. intros y Hy. apply H. now right.
Qed.

(** X26. NaN and infinite entries never influence an average: the
    result is that of the finite entries alone, and it is 0 when there
    is no finite entry, when the array is empty and when it is missing. *)
Theorem average_ignores_non_finite (arr : list float) :
  average (Some arr) = average (Some (filter JS.isFinite arr))
  /\ ((forall x, In x arr -> JS.isFinite x = false) ->
      average (Some arr) = 0)
  /\ average (Some []) = 0
  /\ average None = 0.
Proof.
  split; [|split; [|split; reflexivity]].
  - unfold average. now rewrite filter_idem.
  - intros H. unfold average. now rewrite (filter_all_false _ _ H).
Qed.

Lemma average_ignores_non_finite_witness :
  average (Some [nan; infinity; neg_infinity]) = 0.
Proof.
  apply (proj1 (proj2 (average_ignores_non_finite
                         [nan; infinity; neg_infinity]))).
  intros x [<-|[<-|[<-|[]]]]; reflexivity.
Defined.

(** *** Load adjustment, continued *)

Lemma at_most_3_not_at_least_4 (x : float) :
  (x <=? 3) = true -> (4 <=? x) = false.
Proof.
  rewrite !FloatAxioms.leb_spec.
  change (Prim2SF 3) with (S754_finite false 6755399441055744 (-51)).
  change (Prim2SF 4) with (S754_finite false 4503599627370496 (-50)).
  destruct (Prim2SF x) as [s | s | | s m e]; unfold SFleb, SFcompare.
  - intros _. reflexivity.
  - destruct s; [reflexivity | discriminate].
  - discriminate.
  - destruct s; [reflexivity|].
    destruct (Z.compare_spec e (-51)) as [E|E|E];
      destruct (Z.compare_spec (-50) e) as [F|F|F];
      try lia; try reflexivity; try discriminate.
Qed.

Lemma bonus_excludes_penalties (r : Readiness) :
  fresh_pct r = 3%Z -> sore_pct r = 0%Z /\ stress_pct r = 0%Z.
Proof.
  unfold fresh_pct, sore_pct, stress_pct, JS.geb.
  destruct ((7 <=? sleep r) && (soreness r <=? 3) && (stress r <=? 3))%bool
    eqn:E; [|discriminate].
  apply andb_true_iff in E. destruct E as [E Hstress].
  apply andb_true_iff in E. destruct E as [_ Hsore].
  rewrite (at_most_3_not_at_least_4 _ Hsore),
    (at_most_3_not_at_least_4 _ Hstress).
  now split.
Qed.

Lemma adjustLoad_by_delta (prev : float) (r : Readiness) (pain : bool) :
  adjustLoad prev r pain
  = JS.Math_max 0
      (JS.Math_round
         (prev * (1 + JS.float_of_Z (total_delta_pct r pain) / 100))).
Proof.
  unfold adjustLoad, total_delta_pct, pain_pct, fresh_pct, sore_pct,
    stress_pct.
  destruct pain;
    destruct (JS.geb (sleep r) 7 && (soreness r <=? 3) && (stress r <=? 3))%bool;
    destruct (JS.geb (soreness r) 4);
    destruct (JS.geb (stress r) 4);
    reflexivity.
Qed.

(** X27. The +3% bonus needs soreness and stress of at most 3, so it
    never meets the soreness or the stress penalty: the percentage
    adjustLoad applies is always one of 3, 0, -1, -2, -3, -4, -7, -8, -9
    and -10, never +1 or +2. *)
Theorem adjustLoad_bonus_never_meets_penalty (r : Readiness) (pain : bool) :
  exists d : Z,
    In d [3; 0; -1; -2; -3; -4; -7; -8; -9; -10]%Z
    /\ forall prev,
         adjustLoad prev r pain
         = JS.Math_max 0
             (JS.Math_round (prev * (1 + JS.float_of_Z d / 100))).
Proof.
  exists (total_delta_pct r pain).
  split; [|intros prev; apply adjustLoad_by_delta].
  unfold total_delta_pct.
  pose proof (bonus_excludes_penalties r) as H.
  unfold pain_pct, fresh_pct, sore_pct, stress_pct in *.
  destruct pain;
    destruct (JS.geb (sleep r) 7 && (soreness r <=? 3) && (stress r <=? 3))%bool;
    destruct (JS.geb (soreness r) 4);
    destruct (JS.geb (stress r) 4);
    cbn; try tauto;
    destruct (H eq_refl) as [H1 H2]; discriminate.
Qed.
